(** * audiobook_maker: the word-count analyzer and the chapter splitter

    A shallow embedding of [word_count_analyzer_enhanced.py] and
    [novel_splitter.py].  Python strings are lists of Unicode code points,
    Python integers are [Z], list indices are [nat]; the file system is an
    explicit world that every effectful function threads through. *)

From stdpp Require Import gmap list sorting.

(** ** Python primitives used by the two scripts *)

Module Py.

(** A [str] is a sequence of code points. *)
Definition str := list N.

(** [c.isspace()] for a one-character string: the code points CPython
    treats as whitespace, which are also the ones [str.strip] removes. *)
Definition isspace (c : N) : bool :=
  ((9 <=? c) && (c <=? 13) || (28 <=? c) && (c <=? 32)
   || (c =? 133) || (c =? 160) || (c =? 5760)
   || (8192 <=? c) && (c <=? 8202)
   || (c =? 8232) || (c =? 8233) || (c =? 8239) || (c =? 8287)
   || (c =? 12288))%N.

(** Truth value of [char.strip()] for a one-character string. *)
Definition visible (c : N) : bool := negb (isspace c).

Fixpoint lstrip (s : str) : str :=
  match s with
  | [] => []
  | c :: s' => if isspace c then lstrip s' else s
  end.

Definition rstrip (s : str) : str := rev (lstrip (rev s)).

Definition strip (s : str) : str := rstrip (lstrip s).

(** The newline code point. *)
Definition NL : N := 10.

(** The carriage return, which a read in text mode hands out as a
    newline. *)
Definition CR : N := 13.

(** [s.split('\n')]: never empty, one more piece than newlines. *)
Fixpoint split_nl (s : str) : list str :=
  match s with
  | [] => [[]]
  | c :: s' =>
      if (c =? NL)%N then [] :: split_nl s'
      else match split_nl s' with
           | l :: ls => (c :: l) :: ls
           | [] => [[c]]
           end
  end.

(** ['\n'.join(ls)]. *)
Fixpoint join_nl (ls : list str) : str :=
  match ls with
  | [] => []
  | [l] => l
  | l :: ls' => l ++ NL :: join_nl ls'
  end.

(** [l[a:b]] for non-negative [a], [b]: clamped, empty when [b <= a]. *)
Definition slice {A} (a b : nat) (l : list A) : list A :=
  take (b - a) (drop a l).

(** Decimal digits of a natural number, most significant first. *)
Fixpoint digits (fuel : nat) (n : N) (acc : str) : str :=
  let acc' := (48 + n mod 10)%N :: acc in
  match fuel with
  | 0 => acc'
  | S fuel' => if (n / 10 =? 0)%N then acc' else digits fuel' (n / 10)%N acc'
  end.

(** [str(z)], as an f-string renders an integer. *)
Definition str_of_int (z : Z) : str :=
  let n := Z.to_N (Z.abs z) in
  let ds := digits (N.to_nat (N.log2 n)) n [] in
  if (z <? 0)%Z then 45%N :: ds else ds.

(** [s.rfind(c)], [None] standing for -1. *)
Fixpoint rfind (c : N) (s : str) : option nat :=
  match s with
  | [] => None
  | x :: s' =>
      match rfind c s' with
      | Some i => Some (S i)
      | None => if (x =? c)%N then Some 0 else None
      end
  end.

(** The longest prefix satisfying [f], and the rest. *)
Fixpoint span (f : N → bool) (s : str) : str * str :=
  match s with
  | [] => ([], [])
  | c :: s' =>
      if f c then let '(a, b) := span f s' in (c :: a, b) else ([], s)
  end.

(** [s.zfill(width)]: zeros after a leading sign, up to [width]. *)
Definition zfill (width : nat) (s : str) : str :=
  let zeros := replicate (width - length s) 48%N in
  match s with
  | c :: s' =>
      if ((c =? 43) || (c =? 45))%N then c :: zeros ++ s' else zeros ++ s
  | [] => zeros
  end.

(** [range(a, b)] as a list of integers. *)
Definition range (a b : Z) : list Z :=
  (λ k : nat, (a + Z.of_nat k)%Z) <$> seq 0 (Z.to_nat (b - a)).

(** Exceptions (all subclasses of [Exception]) the scripts can meet. *)
Inductive exn :=
| FileNotFoundError
| UnicodeDecodeError
| PermissionError
| IndexError
| StopIteration.

Inductive result (A : Type) :=
| Ok (a : A)
| Raise (e : exn).
Arguments Ok {A} a.
Arguments Raise {A} e.

End Py.

Import Py.

(** ** pathlib paths and the file system *)

Module FS.

(** A path is its parent directory and its final component. *)
Definition path := (str * str)%type.
Definition parent (p : path) : str := p.1.
Definition name (p : path) : str := p.2.

(** [Path.stem]: the name without its last suffix. *)
Definition stem (p : path) : str :=
  let nm := name p in
  match rfind 46 nm with
  | Some i => if (0 <? i) && (i <? length nm - 1) then take i nm else nm
  | None => nm
  end.

(** A path given as a string, split at its last [/]. *)
Definition of_str (s : str) : path :=
  match rfind 47 s with
  | Some i => (take i s, drop (S i) s)
  | None => ([], s)
  end.

(** [os.path.splitext(nm)[0]] for a final component [nm]: the last dot
    starts the extension unless only dots come before it. *)
Definition splitext_root (nm : str) : str :=
  match rfind 46 nm with
  | Some i => if existsb (λ c, negb (c =? 46)%N) (take i nm) then take i nm
              else nm
  | None => nm
  end.

(** [base_dir / filename]. *)
Definition child (dir : str) (filename : str) : path := (dir, filename).

(** What a path holds: UTF-8 text, or bytes that do not decode. *)
Inductive file :=
| Text (content : str)
| Undecodable.

Inductive event :=
| Write (p : path) (content : str)
| Unlink (p : path).

(** The world: the files, the paths whose opening for writing fails, the
    paths whose removal fails, and the trace of completed effects. *)
Record world := World {
  files : gmap path file;
  write_denied : gset path;
  unlink_denied : gset path;
  log : list event
}.

(** Effectful code: a state transformer that may raise. *)
Definition M (A : Type) : Type := world → world * result A.

Definition ret {A} (a : A) : M A := λ w, (w, Ok a).
Definition raise {A} (e : exn) : M A := λ w, (w, Raise e).
Definition bind {A B} (m : M A) (k : A → M B) : M B :=
  λ w, match m w with
       | (w', Ok a) => k a w'
       | (w', Raise e) => (w', Raise e)
       end.

(** [try: m  except Exception: h]. *)
Definition try_except {A} (m : M A) (h : exn → M A) : M A :=
  λ w, match m w with
       | (w', Ok a) => (w', Ok a)
       | (w', Raise e) => h e w'
       end.

(** [open(p, 'r', encoding='utf-8').read()].  The stored text is returned
    as it is: this is the text Python reads when it holds no carriage
    return. *)
Definition read_text (p : path) : M str :=
  λ w, match files w !! p with
       | Some (Text s) => (w, Ok s)
       | Some Undecodable => (w, Raise UnicodeDecodeError)
       | None => (w, Raise FileNotFoundError)
       end.

(** [open(p, 'w', encoding='utf-8').write(s)]. *)
Definition write_text (p : path) (s : str) : M unit :=
  λ w, if decide (p ∈ write_denied w) then (w, Raise PermissionError)
       else (World (<[p := Text s]> (files w)) (write_denied w)
                   (unlink_denied w) (log w ++ [Write p s]), Ok tt).

(** [p.unlink()]. *)
Definition unlink (p : path) : M unit :=
  λ w, match files w !! p with
       | None => (w, Raise FileNotFoundError)
       | Some _ =>
           if decide (p ∈ unlink_denied w) then (w, Raise PermissionError)
           else (World (delete p (files w)) (write_denied w)
                       (unlink_denied w) (log w ++ [Unlink p]), Ok tt)
       end.

(** [lst[i]] with a non-negative index. *)
Definition index {A} (l : list A) (i : nat) : M A :=
  match l !! i with
  | Some a => ret a
  | None => raise IndexError
  end.

End FS.

Import FS.

Notation "'let*' x ':=' m 'in' k" := (bind m (λ x, k))
  (at level 10, x name, m at level 100, k at level 200, only parsing).

(** ** word_count_analyzer_enhanced.py *)

Module Analyzer.

(** [len([char for char in s if char.strip()])]. *)
Definition visible_count (s : str) : Z :=
  Z.of_nat (length (List.filter visible s)).

(** Lines 50-59: the number of parts and the suffix of each. *)
Definition part_count (word_count : Z) : Z :=
  if ((4000 <? word_count) && (word_count <? 8000))%Z then 2%Z
  else if ((8000 <=? word_count) && (word_count <? 12000))%Z then 3%Z
  else ((word_count - 1) `div` 4000 + 1)%Z.

Definition shang : str := [12298; 19978; 12299]%N.
Definition zhong : str := [12298; 20013; 12299]%N.
Definition xia : str := [12298; 19979; 12299]%N.

Definition part_suffixes (word_count : Z) : list str :=
  if ((4000 <? word_count) && (word_count <? 8000))%Z then [shang; xia]
  else if ((8000 <=? word_count) && (word_count <? 12000))%Z
  then [shang; zhong; xia]
  else (λ i, [60%N] ++ str_of_int i ++ [62%N])
         <$> range 1 (part_count word_count + 1).

(** Lines 62-72: the scan.  The state is [current_word_count] and
    [split_positions]. *)
Record scan_state := Scan {
  current_word_count : Z;
  split_positions : list nat
}.

(** One iteration of [for i, line in enumerate(lines)]. *)
Definition scan_step (parts : Z) (st : scan_state) (i : nat) (line : str)
  : scan_state :=
  let current := (current_word_count st + visible_count line)%Z in
  let expected_split_point :=
    (Z.of_nat (length (split_positions st)) * 4000)%Z in
  if ((expected_split_point <=? current)
      && (Z.of_nat (length (split_positions st)) <? parts))%Z
  then Scan current (split_positions st ++ [i + 1])
  else Scan current (split_positions st).

Fixpoint scan (parts : Z) (i : nat) (lines : list str) (st : scan_state)
  : scan_state :=
  match lines with
  | [] => st
  | line :: rest => scan parts (S i) rest (scan_step parts st i line)
  end.

(** Lines 62-76: the scan from [[0]], then the final position. *)
Definition compute_split_positions (parts : Z) (lines : list str)
  : list nat :=
  let sp := split_positions (scan parts 0 lines (Scan 0 [0])) in
  if (Z.of_nat (length sp) <? parts + 1)%Z then sp ++ [length lines]
  else sp.

Definition dot_txt : str := [46; 116; 120; 116]%N.

(** Lines 85-88: the lines of part [i]. *)
Definition part_lines (lines : list str) (sp : list nat) (i : nat)
  : M (list str) :=
  let* start_line := index sp i in
  let* end_line :=
    (if bool_decide (i + 1 < length sp) then index sp (i + 1)
     else ret (length lines)) in
  ret (slice start_line end_line lines).

(** Lines 85-95: one iteration of [for i in range(parts)]. *)
Definition write_part (file_path : path) (lines : list str)
    (suffixes : list str) (sp : list nat) (i : nat) : M path :=
  let* part := part_lines lines sp i in
  let split_content := join_nl part in
  let* suffix := index suffixes i in
  let new_filename := stem file_path ++ suffix ++ dot_txt in
  let new_file_path := child (parent file_path) new_filename in
  let* _ := write_text new_file_path split_content in
  ret new_file_path.

Fixpoint write_parts (file_path : path) (lines : list str)
    (suffixes : list str) (sp : list nat) (todo : list nat)
    (created_files : list path) : M (list path) :=
  match todo with
  | [] => ret created_files
  | i :: rest =>
      let* new_file_path := write_part file_path lines suffixes sp i in
      write_parts file_path lines suffixes sp rest
        (created_files ++ [new_file_path])
  end.

(** Lines 45-102: the body of the [try]. *)
Definition split_text_file_body (file_path : path) (word_count : Z)
  : M (list path) :=
  let* content := read_text file_path in
  let lines := split_nl content in
  let parts := part_count word_count in
  let suffixes := part_suffixes word_count in
  let sp := compute_split_positions parts lines in
  let* created_files :=
    write_parts file_path lines suffixes sp (seq 0 (Z.to_nat parts)) [] in
  let* _ := unlink file_path in
  ret created_files.

(** Lines 36-106: any exception is turned into the empty list. *)
Definition split_text_file (file_path : path) (word_count : Z)
  : M (list path) :=
  try_except (split_text_file_body file_path word_count) (λ _, ret []).

(** An entry of [long_files]: [(filename, word_count, file_path)]. *)
Definition long_file := (str * Z * path)%type.

Record tally := Tally { success_count : nat; error_count : nat }.

(** Lines 235-244: one iteration of the batch loop. *)
Definition split_one (t : tally) (sel : path * long_file) : M tally :=
  let '(file_path, (filename, word_count, _)) := sel in
  try_except
    (let* created_files := split_text_file file_path word_count in
     match created_files with
     | _ :: _ => ret (Tally (success_count t + 1) (error_count t))
     | [] => ret (Tally (success_count t) (error_count t + 1))
     end)
    (λ _, ret (Tally (success_count t) (error_count t + 1))).

Fixpoint split_batch (selected_files : list (path * long_file)) (t : tally)
  : M tally :=
  match selected_files with
  | [] => ret t
  | sel :: rest => let* t' := split_one t sel in split_batch rest t'
  end.

(** Keys of the [file_vars] dictionary, in insertion order. *)
Definition dict_add_key (keys : list path) (k : path) : list path :=
  if decide (k ∈ keys) then keys else keys ++ [k].

Definition file_vars_keys (long_files : list long_file) : list path :=
  foldl dict_add_key [] (snd <$> long_files).

(** [next(item for item in long_files if item[2] == path)]. *)
Fixpoint next_item (long_files : list long_file) (p : path) : M long_file :=
  match long_files with
  | [] => raise StopIteration
  | item :: rest =>
      if decide (item.2 = p) then ret item else next_item rest p
  end.

(** Lines 217-218: the checked entries, each with its [long_files] item. *)
Fixpoint select_files (long_files : list long_file) (checked : path → bool)
    (keys : list path) : M (list (path * long_file)) :=
  match keys with
  | [] => ret []
  | p :: rest =>
      if checked p then
        let* item := next_item long_files p in
        let* more := select_files long_files checked rest in
        ret ((p, item) :: more)
      else select_files long_files checked rest
  end.

(** Lines 216-262: [split_selected_files], given the state of the check
    boxes and the answer to the confirmation prompt. *)
Definition split_selected_files (long_files : list long_file)
    (checked : path → bool) (confirmed : bool) : M (option tally) :=
  let* selected_files :=
    select_files long_files checked (file_vars_keys long_files) in
  match selected_files with
  | [] => ret None
  | _ :: _ =>
      if confirmed then
        let* t := split_batch selected_files (Tally 0 0) in ret (Some t)
      else ret None
  end.

(** Lines 14-34. *)
Definition count_words_in_file (file_path : path) : M Z :=
  try_except
    (let* content := read_text file_path in ret (visible_count content))
    (λ _, ret 0%Z).

(** An entry of [file_data]. *)
Record file_datum := FileDatum {
  fd_filename : str;
  fd_word_count : Z;
  fd_path : path
}.

(** Lines 302-312: the analysis loop. *)
Fixpoint analyze_files (txt_files : list path)
    (file_data : list file_datum) (long_files : list long_file)
  : M (list file_datum * list long_file) :=
  match txt_files with
  | [] => ret (file_data, long_files)
  | txt_file :: rest =>
      let* word_count := count_words_in_file txt_file in
      let file_data' :=
        file_data ++ [FileDatum (name txt_file) word_count txt_file] in
      let long_files' :=
        if (4000 <? word_count)%Z
        then long_files ++ [(name txt_file, word_count, txt_file)]
        else long_files in
      analyze_files rest file_data' long_files'
  end.

(** Line 317: [file_data.sort(key=word_count, reverse=True)], a stable
    sort by decreasing word count. *)
Fixpoint insert_desc (d : file_datum) (sorted : list file_datum)
  : list file_datum :=
  match sorted with
  | [] => [d]
  | e :: rest =>
      if (fd_word_count d <? fd_word_count e)%Z
      then e :: insert_desc d rest
      else d :: sorted
  end.

Definition sort_desc (file_data : list file_datum) : list file_datum :=
  foldr insert_desc [] file_data.

(** The two values of the [status] column. *)
Definition too_long_status : str :=
  [9888; 65039; 32; 84; 111; 111; 32; 76; 111; 110; 103]%N.
Definition safe_status : str := [9989; 32; 83; 97; 102; 101]%N.

(** Lines 329-335: a row of the CSV report. *)
Definition csv_row (d : file_datum) : str * Z * str :=
  (fd_filename d, fd_word_count d,
   if (4000 <? fd_word_count d)%Z then too_long_status else safe_status).

(** What the user does with the long-files dialog. *)
Inductive dialog_action :=
| SplitSelected (checked : path → bool) (confirmed : bool)
| Cancel.

Record analysis := Analysis {
  rows : list (str * Z * str);
  long : list long_file;
  batch : option tally
}.

(** Lines 278-357: [analyze_folder] on the files the glob returned.
    [None] is the early return for a missing folder or no text file. *)
Definition analyze_folder (folder_exists : bool) (txt_files : list path)
    (action : dialog_action) : M (option analysis) :=
  if negb folder_exists then ret None
  else match txt_files with
  | [] => ret None
  | _ :: _ =>
      let* analysed := analyze_files txt_files [] [] in
      let file_data := analysed.1 in
      let long_files := analysed.2 in
      let report := csv_row <$> sort_desc file_data in
      match long_files with
      | [] => ret (Some (Analysis report [] None))
      | _ :: _ =>
          match action with
          | SplitSelected checked confirmed =>
              let* t := split_selected_files long_files checked confirmed in
              ret (Some (Analysis report long_files t))
          | Cancel => ret (Some (Analysis report long_files None))
          end
      end
  end.

End Analyzer.

(** ** novel_splitter.py *)

Module Novel.

Definition di : N := 31532.
Definition zhang : N := 31456.

Record chapter := Chapter {
  number : str;
  title : str;
  content : str
}.

(** The loop state of lines 38-40. *)
Record loop_state := Loop {
  chapters : list chapter;
  current_chapter : option (str * str);
  current_content : list str
}.

Section Pattern.

(** [\d] matches the decimal digits of the Unicode database, a table of
    the interpreter and not of this repository. *)
Variable isdecimal : N → bool.

(** [\s+(.+)$] on what follows the chapter sign; the result is group 2.
    [$] also matches before a final newline and [.] matches no
    newline. *)
Definition match_title (u : str) : option str :=
  let u' := match rev u with
            | c :: r => if (c =? NL)%N then rev r else u
            | [] => u
            end in
  let '(ws, r) := span isspace u' in
  match r with
  | _ :: _ =>
      if forallb (λ c, negb (c =? NL)%N) r
      then match ws with _ :: _ => Some r | [] => None end
      else None
  | [] =>
      match rev ws with
      | c :: _ :: _ => if (c =? NL)%N then None else Some [c]
      | _ => None
      end
  end.

(** [(\d+)章] followed by [match_title], the longest digit run first. *)
Fixpoint match_number (seen_digit : bool) (s : str)
  : option (str * str) :=
  match s with
  | [] => None
  | c :: s' =>
      let stop :=
        if seen_digit && (c =? zhang)%N
        then (λ t, ([], t)) <$> match_title s' else None in
      if isdecimal c then
        match match_number true s' with
        | Some (ds, t) => Some (c :: ds, t)
        | None => stop
        end
      else stop
  end.

(** [re.match(r'^第(\d+)章\s+(.+)$', line)]: groups 1 and 2. *)
Definition chapter_match (line : str) : option (str * str) :=
  match line with
  | c :: s => if (c =? di)%N then match_number false s else None
  | [] => None
  end.

Definition close_chapter (st : loop_state) : list chapter :=
  match current_chapter st with
  | Some (num, ttl) =>
      chapters st ++ [Chapter num ttl (join_nl (current_content st))]
  | None => chapters st
  end.

(** Lines 42-69: one iteration of [for line in lines]. *)
Definition chapter_step (st : loop_state) (raw_line : str) : loop_state :=
  let line := strip raw_line in
  match chapter_match line with
  | Some (chapter_num, group2) =>
      Loop (close_chapter st) (Some (chapter_num, strip group2)) [line]
  | None =>
      match current_chapter st with
      | Some _ =>
          Loop (chapters st) (current_chapter st)
               (current_content st ++ [line])
      | None => st
      end
  end.

(** Lines 37-77: the chapters of a text. *)
Definition collect_chapters (lines : list str) : list chapter :=
  close_chapter (foldl chapter_step (Loop [] None []) lines).

(** Line 82: the characters not allowed in a file name (angle
    brackets, colon, double quote, slash, backslash, bar, question mark
    and star) are deleted from the title. *)
Definition clean_title (ttl : str) : str :=
  List.filter
    (λ c, negb (bool_decide
                  (c ∈ [60; 62; 58; 34; 47; 92; 124; 63; 42]%N))) ttl.

Definition chapter_filename (ch : chapter) : str :=
  [di] ++ zfill 4 (number ch) ++ [zhang; 95%N] ++ clean_title (title ch)
       ++ [46; 116; 120; 116]%N.

(** Lines 80-92: one file per chapter. *)
Fixpoint write_chapters (output_folder : str) (chs : list chapter)
  : M unit :=
  match chs with
  | [] => ret tt
  | ch :: rest =>
      let* _ :=
        write_text (child output_folder (chapter_filename ch))
                   (content ch) in
      write_chapters output_folder rest
  end.

(** Lines 5-97.  Directories are not part of the world: the creation of
    the output folder (lines 23-25) does not show in it, and the run
    described is one in which that creation does not raise. *)
Definition split_novel_by_chapters (file_path : str) : M unit :=
  λ w,
    match files w !! of_str file_path with
    | None => (w, Ok tt)
    | Some _ =>
        let output_folder := splitext_root (name (of_str file_path)) in
        try_except
          (let* text := read_text (of_str file_path) in
           write_chapters output_folder
             (collect_chapters (split_nl text)))
          (λ _, ret tt) w
    end.

End Pattern.

End Novel.

(** ** Vocabulary of the statements *)

Module Spec.

Import Analyzer.

(** A list of indices never goes down. *)
Definition nondecreasing (l : list nat) : Prop :=
  ∀ i j a b, i ≤ j → l !! i = Some a → l !! j = Some b → a ≤ b.

(** The non-whitespace characters of a document. *)
Definition total_count (lines : list str) : Z :=
  foldr (λ line acc, (visible_count line + acc)%Z) 0%Z lines.

(** What the scan maintains after the lines before index [i]. *)
Definition scan_inv (parts : Z) (i : nat) (st : scan_state) : Prop :=
  split_positions st !! 0 = Some 0 ∧
  nondecreasing (split_positions st) ∧
  Forall (λ a, a ≤ i) (split_positions st) ∧
  (Z.of_nat (length (split_positions st)) ≤ Z.max 1 parts)%Z.

(** The scan is not behind: the next threshold is still ahead, or every
    interior split point has been recorded. *)
Definition on_pace (parts : Z) (st : scan_state) : Prop :=
  (current_word_count st < Z.of_nat (length (split_positions st)) * 4000
   ∨ parts ≤ Z.of_nat (length (split_positions st)))%Z.

(** The lines of part [i], when position [i] exists. *)
Definition slice_of (lines : list str) (sp : list nat) (i : nat)
  : option (list str) :=
  match sp !! i with
  | Some a => Some (slice a (default (length lines) (sp !! (i + 1))) lines)
  | None => None
  end.

(** The file of the part with a given suffix. *)
Definition part_target (file_path : path) (suffix : str) : path :=
  child (parent file_path) (stem file_path ++ suffix ++ dot_txt).

(** The files a split of [file_path] is to create, in order. *)
Definition part_targets (file_path : path) (word_count : Z) : list path :=
  part_target file_path <$> part_suffixes word_count.

(** The world after the writes of [cs] to [ps], in order. *)
Definition written (w : world) (ps : list path) (cs : list str) : world :=
  World (foldl (λ m pc, <[pc.1 := Text pc.2]> m) (files w) (zip ps cs))
        (write_denied w) (unlink_denied w)
        (log w ++ zip_with Write ps cs).

(** The count the analysis gives to a path: 0 when it cannot be read. *)
Definition count_of (w : world) (p : path) : Z :=
  match files w !! p with
  | Some (Text content) => visible_count content
  | _ => 0%Z
  end.

Definition datum_of (w : world) (p : path) : file_datum :=
  FileDatum (name p) (count_of w p) p.

Definition long_entry_of (w : world) (p : path) : long_file :=
  (name p, count_of w p, p).

(** The files of a listing that the analysis reports as long. *)
Definition long_files_of (w : world) (txt_files : list path)
  : list long_file :=
  long_entry_of w <$> filter (λ p, (4000 < count_of w p)%Z) txt_files.

(** A stripped line is a chapter header. *)
Definition is_header (isdecimal : N → bool) (line : str) : bool :=
  match Novel.chapter_match isdecimal line with
  | Some _ => true
  | None => false
  end.

(** The lines from the first chapter header on. *)
Fixpoint from_first_header (isdecimal : N → bool) (ls : list str)
  : list str :=
  match ls with
  | [] => []
  | l :: rest =>
      if is_header isdecimal l then ls else from_first_header isdecimal rest
  end.

(** The effect of writing one chapter into the output folder. *)
Definition chapter_event (output_folder : str) (ch : Novel.chapter) : event :=
  Write (child output_folder (Novel.chapter_filename ch)) (Novel.content ch).

(** What the chapter loop maintains after the stripped lines [seen]:
    [groups] are the lines of the closed chapters. *)
Definition chapters_inv (isdecimal : N → bool) (st : Novel.loop_state)
    (seen : list str) (groups : list (list str)) : Prop :=
  Novel.content <$> Novel.chapters st = join_nl <$> groups ∧
  match Novel.current_chapter st with
  | None => groups = [] ∧ from_first_header isdecimal seen = []
  | Some _ =>
      Novel.current_content st ≠ [] ∧
      concat groups ++ Novel.current_content st
      = from_first_header isdecimal seen
  end.

End Spec.

(** ** Sample data for the statements that need a concrete run *)

Module Sample.

Import Analyzer Spec.

(** [novel/ch1.txt]. *)
Definition ch1 : path :=
  ([110; 111; 118; 101; 108]%N, [99; 104; 49; 46; 116; 120; 116]%N).

(** [novel/ch2.txt], which is never created. *)
Definition ch2 : path :=
  ([110; 111; 118; 101; 108]%N, [99; 104; 50; 46; 116; 120; 116]%N).

(** Three lines of 3000 letters each: 9000 counted characters. *)
Definition three_lines : str :=
  replicate 3000 97%N ++ [NL] ++ replicate 3000 98%N ++ [NL]
    ++ replicate 3000 99%N.

(** A world that holds [ch1] only. *)
Definition plain_world : world :=
  World {[ ch1 := Text three_lines ]} ∅ ∅ [].

(** A world whose only file is one line of 12001 letters. *)
Definition one_long_line : world :=
  World {[ ch1 := Text (replicate (Z.to_nat 12001) 97%N) ]} ∅ ∅ [].

(** The ASCII digits, a sample of the decimal digits. *)
Definition ascii_digit (c : N) : bool := ((48 <=? c) && (c <=? 57))%N.

(** A title page line, then a chapter header and one line of text. *)
Definition title_page : list str := [[66; 111; 111; 107]%N].
Definition first_chapter : list str :=
  [[31532; 49; 31456; 32; 65]%N; [104; 105]%N].

(** The same world where the third part cannot be written. *)
Definition third_part_denied : world :=
  World {[ ch1 := Text three_lines ]} {[ part_target ch1 xia ]} ∅ [].

(** [novel/ch3.txt], one line of exactly 4000 letters, beside [ch1]. *)
Definition ch3 : path :=
  ([110; 111; 118; 101; 108]%N, [99; 104; 51; 46; 116; 120; 116]%N).

Definition boundary_world : world :=
  World {[ ch1 := Text three_lines; ch3 := Text (replicate 4000 97%N) ]}
        ∅ ∅ [].

End Sample.

(** ** Further sample data *)

Module Sample2.

Import Analyzer Spec Sample.

(** A world where [ch1] cannot be removed. *)
Definition original_locked : world :=
  World {[ ch1 := Text three_lines ]} ∅ {[ ch1 ]} [].

(** [book.txt], a text in which chapter 1, titled A, comes twice. *)
Definition book_txt : str := [98; 111; 111; 107; 46; 116; 120; 116]%N.

Definition twice_text : str :=
  [31532; 49; 31456; 32; 65; 10; 120; 10;
   31532; 49; 31456; 32; 65; 10; 121]%N.

Definition book_world : world :=
  World {[ of_str book_txt := Text twice_text ]} ∅ ∅ [].

(** The second chapter of [twice_text]. *)
Definition second_chapter : Novel.chapter :=
  Novel.Chapter [49%N] [65%N] [31532; 49; 31456; 32; 65; 10; 121]%N.

End Sample2.

(** ** The path prompts (novel_splitter.py lines 106-112,
       word_count_analyzer_enhanced.py line 378) *)

Module Cli.

(** The double quote. *)
Definition quote : N := 34.

(** [s.startswith(q)] and [s.endswith(q)] for the double quote [q]. *)
Definition starts_with_quote (s : str) : bool :=
  match s with
  | c :: _ => (c =? quote)%N
  | [] => false
  end.

Definition ends_with_quote (s : str) : bool := starts_with_quote (rev s).

(** novel_splitter.py: the typed line is stripped, and loses one quote at
    each end when it has one at both. *)
Definition novel_path (typed : str) : str :=
  let file_path := strip typed in
  if starts_with_quote file_path && ends_with_quote file_path
  then slice 1 (length file_path - 1) file_path
  else file_path.

(** [s.lstrip(q)] and [s.strip(q)] for the double quote [q]. *)
Fixpoint lstrip_quotes (s : str) : str :=
  match s with
  | [] => []
  | c :: s' => if (c =? quote)%N then lstrip_quotes s' else s
  end.

Definition strip_quotes (s : str) : str :=
  rev (lstrip_quotes (rev (lstrip_quotes s))).

(** word_count_analyzer_enhanced.py: the typed line is stripped of
    whitespace, then of every double quote at either end. *)
Definition analyzer_path (typed : str) : str := strip_quotes (strip typed).

End Cli.

(** ** The JSON text of a response (the generator, lines 79-86) *)

Module Gemini.

(** [s.find(c)] for a one-character [c]: the lowest index, or -1. *)
Fixpoint find_from (c : N) (s : str) (i : Z) : Z :=
  match s with
  | [] => (-1)%Z
  | x :: s' => if (x =? c)%N then i else find_from c s' (i + 1)%Z
  end.

Definition find (c : N) (s : str) : Z := find_from c s 0.

(** [s.rfind(c)] as an integer: the highest index, or -1. *)
Definition rfind_index (c : N) (s : str) : Z :=
  match rfind c s with
  | Some i => Z.of_nat i
  | None => (-1)%Z
  end.

(** Lines 79-86.  Both bounds of the slice are non-negative when it is
    taken. *)
Definition extract_json_text (response_text : str) : str :=
  let json_start := find 91 response_text in
  let json_end := (rfind_index 93 response_text + 1)%Z in
  if negb (json_start =? -1)%Z && negb (json_end =? -1)%Z
  then slice (Z.to_nat json_start) (Z.to_nat json_end) response_text
  else response_text.

End Gemini.

(** ** Vocabulary of the further statements *)

Module Vocab.

Import Analyzer Spec.

(** The number a string of decimal digits stands for. *)
Definition decimal_value (s : str) : N :=
  foldl (λ a d, (10 * a + (d - 48))%N) 0%N s.

(** The chapter of a group of lines: the group is a header line followed
    by lines that are not headers, the content is the group joined by
    newlines, the number is group 1 of the header and the title is its
    group 2, stripped. *)
Definition chapter_wf (isdecimal : N → bool) (ch : Novel.chapter)
    (group : list str) : Prop :=
  ∃ (h : str) (body : list str) (group2 : str),
    group = h :: body ∧
    Novel.content ch = join_nl group ∧
    Novel.chapter_match isdecimal h = Some (Novel.number ch, group2) ∧
    Novel.title ch = strip group2 ∧
    Forall (λ l, Novel.chapter_match isdecimal l = None) body.

(** What the chapter loop maintains after the stripped lines [seen]: the
    closed chapters are the chapters of [groups], the open chapter holds
    a header and the lines seen since, the groups and the open lines
    together are the lines seen from the first header on, and there are
    as many chapters as headers seen. *)
Definition chapters_wf_inv (isdecimal : N → bool) (st : Novel.loop_state)
    (seen : list str) (groups : list (list str)) : Prop :=
  Forall2 (chapter_wf isdecimal) (Novel.chapters st) groups ∧
  match Novel.current_chapter st with
  | None =>
      groups = [] ∧
      from_first_header isdecimal seen = [] ∧
      filter (λ l, is_header isdecimal l = true) seen = []
  | Some (num, ttl) =>
      (∃ (h : str) (body : list str) (group2 : str),
         Novel.current_content st = h :: body ∧
         Novel.chapter_match isdecimal h = Some (num, group2) ∧
         ttl = strip group2 ∧
         Forall (λ l, Novel.chapter_match isdecimal l = None) body) ∧
      concat groups ++ Novel.current_content st
      = from_first_header isdecimal seen ∧
      S (length groups)
      = length (filter (λ l, is_header isdecimal l = true) seen)
  end.

End Vocab.

Import Analyzer Spec Vocab.

(** ** The Python primitives on small inputs *)

Example split_nl_sample :
  split_nl [97; 10; 98; 10]%N = [[97]; [98]; []]%N.
Proof. reflexivity. Qed.

Example strip_sample : strip [32; 97; 32; 98; 9; 12288]%N = [97; 32; 98]%N.
Proof. reflexivity. Qed.

Example str_of_int_sample :
  str_of_int 10 = [49; 48]%N ∧ str_of_int 0 = [48]%N
  ∧ str_of_int 999 = [57; 57; 57]%N ∧ str_of_int (-7) = [45; 55]%N.
Proof. by vm_compute. Qed.

Example stem_sample : stem Sample.ch1 = [99; 104; 49]%N.
Proof. reflexivity. Qed.

Lemma join_split_nl (s : str) : join_nl (split_nl s) = s.
Proof.
  induction s as [|c s IH]; simpl; [done|].
  destruct (N.eqb_spec c NL) as [->|Hc].
  - destruct (split_nl s) as [|l ls] eqn:Hs; simpl in *; by subst.
  - destruct (split_nl s) as [|l ls] eqn:Hs; simpl in *; [by subst|].
    destruct ls; simpl in *; by subst.
Qed.

Example numbered_suffixes :
  part_suffixes 16001
  = [[60; 49; 62]; [60; 50; 62]; [60; 51; 62]; [60; 52; 62]; [60; 53; 62]]%N.
Proof. by vm_compute. Qed.

(** ** The part plan (lines 50-59) *)

Lemma part_suffixes_length (word_count : Z) :
  Z.of_nat (length (part_suffixes word_count)) = Z.max 0 (part_count word_count).
Proof.
  unfold part_suffixes, part_count, range.
  destruct ((4000 <? word_count) && (word_count <? 8000))%Z; [simpl; lia|].
  destruct ((8000 <=? word_count) && (word_count <? 12000))%Z; [simpl; lia|].
  rewrite !length_fmap, length_seq. lia.
Qed.

(** C4: counts strictly between 4000 and 8000 give 2 parts, counts from
    8000 up to but excluding 12000 give 3 parts, and every other count [c]
    gives [(c - 1) // 4000 + 1] parts; 5000, 9000 and 16001 give 2, 3 and 5
    parts. *)
Theorem part_count_cases (word_count : Z) :
  ((4000 < word_count < 8000 → part_count word_count = 2) ∧
   (8000 ≤ word_count < 12000 → part_count word_count = 3) ∧
   (word_count ≤ 4000 ∨ 12000 ≤ word_count →
    part_count word_count = (word_count - 1) `div` 4000 + 1) ∧
   part_count 5000 = 2 ∧ part_count 9000 = 3 ∧ part_count 16001 = 5)%Z.
Proof.
  unfold part_count.
  repeat split; try reflexivity; intros H;
    repeat case_match; try reflexivity; lia.
Qed.

Lemma part_count_cases_witness :
  (part_count 4001 = 2 ∧ part_count 8000 = 3 ∧
   part_count 12000 = (12000 - 1) `div` 4000 + 1)%Z.
Proof.
  split; [|split].
  - destruct (part_count_cases 4001) as (H & _). apply H. lia.
  - destruct (part_count_cases 8000) as (_ & H & _). apply H. lia.
  - destruct (part_count_cases 12000) as (_ & _ & H & _). apply H. lia.
Defined.

(** C5, as the code has it: every character count of at least 1 gets at
    least one part. *)
Theorem part_count_positive (word_count : Z) :
  (1 ≤ word_count → 1 ≤ part_count word_count)%Z.
Proof.
  intros H. unfold part_count. repeat case_match; try lia.
  assert (0 ≤ (word_count - 1) `div` 4000)%Z by (apply Z.div_pos; lia). lia.
Qed.

Lemma part_count_positive_witness : (1 ≤ part_count 1)%Z.
Proof. apply (part_count_positive 1). lia. Defined.

(** C5 fails as stated: an empty file has character count 0, and floor
    division gives it no part at all. *)
Lemma part_count_zero : part_count 0 = 0%Z ∧ ¬ (1 ≤ part_count 0)%Z.
Proof. split; [reflexivity | vm_compute; intros H; apply H; reflexivity]. Qed.

(** ** The split-point scan (lines 61-76) *)

Section Scan.

Variable parts : Z.

Lemma scan_app (l1 l2 : list str) (i : nat) (st : scan_state) :
  scan parts i (l1 ++ l2) st
  = scan parts (i + length l1) l2 (scan parts i l1 st).
Proof.
  revert i st. induction l1 as [|l l1 IH]; intros i st; simpl.
  - by rewrite Nat.add_0_r.
  - rewrite IH. f_equal. lia.
Qed.

Lemma scan_snoc (pre : list str) (line : str) (st : scan_state) :
  scan parts 0 (pre ++ [line]) st
  = scan_step parts (scan parts 0 pre st) (length pre) line.
Proof. by rewrite scan_app. Qed.

Lemma scan_step_current (st : scan_state) (i : nat) (line : str) :
  current_word_count (scan_step parts st i line)
  = (current_word_count st + visible_count line)%Z.
Proof. unfold scan_step. by case_match. Qed.

Lemma scan_current (lines : list str) (i : nat) (st : scan_state) :
  current_word_count (scan parts i lines st)
  = (current_word_count st + total_count lines)%Z.
Proof.
  revert i st. induction lines as [|l lines IH]; intros i st; simpl.
  - lia.
  - rewrite IH, scan_step_current. lia.
Qed.

Lemma nondecreasing_snoc (l : list nat) (x : nat) :
  nondecreasing l → Forall (λ a, a ≤ x) l → nondecreasing (l ++ [x]).
Proof.
  intros Hl Hx i j a b Hij Ha Hb.
  destruct (decide (j < length l)) as [Hj|Hj].
  - rewrite lookup_app_l in Ha, Hb by lia. eauto.
  - assert (b = x) as ->.
    { rewrite lookup_app_r in Hb by lia.
      apply list_lookup_singleton_Some in Hb. by destruct Hb. }
    destruct (decide (i < length l)) as [Hi|Hi].
    + rewrite lookup_app_l in Ha by lia.
      rewrite Forall_lookup in Hx. eauto.
    + rewrite lookup_app_r in Ha by lia.
      apply list_lookup_singleton_Some in Ha. destruct Ha; lia.
Qed.

Lemma scan_step_inv (st : scan_state) (i : nat) (line : str) :
  scan_inv parts i st → scan_inv parts (S i) (scan_step parts st i line).
Proof.
  intros (H0 & Hnd & Hle & Hlen). unfold scan_step, scan_inv.
  case_match eqn:Hc; simpl.
  - apply andb_true_iff in Hc as [_ Hc%Z.ltb_lt].
    split; [|split; [|split]].
    + rewrite lookup_app_l; [done|]. by apply lookup_lt_Some in H0.
    + apply nondecreasing_snoc; [done|].
      eapply Forall_impl; [done|]. simpl. lia.
    + apply Forall_app. split.
      * eapply Forall_impl; [done|]. simpl. lia.
      * apply Forall_singleton. lia.
    + rewrite length_app. simpl. lia.
  - split; [done|split; [done|split; [|done]]].
    eapply Forall_impl; [done|]. simpl. lia.
Qed.

Lemma scan_inv_run (lines : list str) (i : nat) (st : scan_state) :
  scan_inv parts i st →
  scan_inv parts (i + length lines) (scan parts i lines st).
Proof.
  revert i st. induction lines as [|l lines IH]; intros i st Hinv; simpl.
  - by rewrite Nat.add_0_r.
  - replace (i + S (length lines)) with (S i + length lines) by lia.
    apply IH. by apply scan_step_inv.
Qed.

Lemma scan_inv_init : scan_inv parts 0 (Scan 0 [0]).
Proof.
  split; [done|split; [|split]].
  - intros [|i] [|j] a b Hij Ha Hb; simplify_eq/=; try lia.
  - by apply Forall_singleton.
  - simpl. lia.
Qed.

Lemma scan_step_on_pace (st : scan_state) (i : nat) (line : str) :
  (visible_count line ≤ 4000)%Z →
  on_pace parts st → on_pace parts (scan_step parts st i line).
Proof.
  unfold on_pace, scan_step. intros Hline Hst.
  case_match eqn:Hc; simpl.
  - rewrite length_app. simpl. lia.
  - apply andb_false_iff in Hc as [Hc%Z.leb_gt|Hc%Z.ltb_ge]; lia.
Qed.

Lemma scan_on_pace (lines : list str) (i : nat) (st : scan_state) :
  Forall (λ line, (visible_count line ≤ 4000)%Z) lines →
  on_pace parts st → on_pace parts (scan parts i lines st).
Proof.
  revert i st. induction lines as [|l lines IH]; intros i st Hl Hst; simpl.
  - done.
  - inversion Hl; subst. apply IH; [done|]. by apply scan_step_on_pace.
Qed.

(** Once [parts] positions are recorded the scan records no more. *)
Lemma scan_full (lines : list str) (i : nat) (st : scan_state) :
  (parts ≤ Z.of_nat (length (split_positions st)))%Z →
  split_positions (scan parts i lines st) = split_positions st.
Proof.
  revert i st. induction lines as [|l lines IH]; intros i st Hst; simpl.
  - done.
  - assert (split_positions (scan_step parts st i l) = split_positions st)
      as Hstep.
    { unfold scan_step. case_match eqn:Hc; [|done].
      apply andb_true_iff in Hc as [_ Hc%Z.ltb_lt]. lia. }
    rewrite IH; [done|]. by rewrite Hstep.
Qed.

End Scan.

Lemma visible_count_nonneg (s : str) : (0 ≤ visible_count s)%Z.
Proof. unfold visible_count. lia. Qed.

Lemma scan_step_record (parts : Z) (st : scan_state) (i : nat) (line : str) :
  (Z.of_nat (length (split_positions st)) * 4000
   ≤ current_word_count st + visible_count line)%Z →
  (Z.of_nat (length (split_positions st)) < parts)%Z →
  scan_step parts st i line
  = Scan (current_word_count st + visible_count line)
         (split_positions st ++ [i + 1]).
Proof.
  intros H1%Z.leb_le H2%Z.ltb_lt. unfold scan_step. by rewrite H1, H2.
Qed.

Lemma scan_step_skip (parts : Z) (st : scan_state) (i : nat) (line : str) :
  ¬ ((Z.of_nat (length (split_positions st)) * 4000
      ≤ current_word_count st + visible_count line)%Z
     ∧ (Z.of_nat (length (split_positions st)) < parts)%Z) →
  scan_step parts st i line
  = Scan (current_word_count st + visible_count line) (split_positions st).
Proof.
  intros H. unfold scan_step. case_match eqn:Hc; [|done].
  apply andb_true_iff in Hc as [H1%Z.leb_le H2%Z.ltb_lt]. tauto.
Qed.

(** The positions the scan itself leaves, before the final one is added. *)
Lemma scan_positions_bound (parts : Z) (lines : list str) :
  (1 ≤ parts)%Z →
  (Z.of_nat (length (split_positions (scan parts 0%nat lines
                                            (Scan 0 [0%nat]))))
   ≤ parts)%Z.
Proof.
  intros Hparts.
  destruct (scan_inv_run parts lines 0 _ (scan_inv_init parts))
    as (_ & _ & _ & Hlen). lia.
Qed.

(** What the split positions always satisfy. *)
Lemma split_positions_wf (parts : Z) (lines : list str) :
  (1 ≤ parts)%Z →
  let sp := compute_split_positions parts lines in
  sp = split_positions (scan parts 0 lines (Scan 0 [0])) ++ [length lines] ∧
  sp !! 0 = Some 0 ∧ last sp = Some (length lines) ∧ nondecreasing sp ∧
  2 ≤ length sp ∧ (Z.of_nat (length sp) ≤ parts + 1)%Z.
Proof.
  intros Hparts sp. subst sp. unfold compute_split_positions.
  pose proof (scan_inv_run parts lines 0 _ (scan_inv_init parts))
    as (H0 & Hnd & Hle & Hlen).
  set (st := scan parts 0 lines (Scan 0 [0])) in *. simpl in Hle.
  assert (0 < length (split_positions st)) as Hpos
    by (by apply lookup_lt_Some in H0).
  assert ((Z.of_nat (length (split_positions st)) <? parts + 1)%Z = true)
    as -> by (apply Z.ltb_lt; lia).
  split; [done|].
  split; [by rewrite lookup_app_l|].
  split; [by rewrite last_snoc|].
  split; [by apply nondecreasing_snoc|].
  rewrite length_app. simpl. lia.
Qed.

(** C1, as the code has it: for a part count of at least 1 the split
    positions start at 0, end at the number of lines, never go down, and
    are at least 2 and at most [parts + 1]; they are exactly [parts + 1]
    when no line holds more than 4000 counted characters and the document
    holds at least [(parts - 1) * 4000]. *)
Theorem split_positions_shape (parts : Z) (lines : list str) :
  (1 ≤ parts)%Z →
  let sp := compute_split_positions parts lines in
  sp !! 0 = Some 0 ∧ last sp = Some (length lines) ∧ nondecreasing sp ∧
  2 ≤ length sp ∧ (Z.of_nat (length sp) ≤ parts + 1)%Z ∧
  (Forall (λ line, (visible_count line ≤ 4000)%Z) lines →
   ((parts - 1) * 4000 ≤ total_count lines)%Z →
   Z.of_nat (length sp) = (parts + 1)%Z).
Proof.
  intros Hparts sp. subst sp.
  destruct (split_positions_wf parts lines Hparts)
    as (Hsp & H0 & Hlast & Hnd & Hlen2 & Hlen).
  do 5 (split; [done|]). intros Hlines Htotal.
  rewrite Hsp in Hlen |- *. rewrite length_app in *.
  simpl in *.
  set (st := scan parts 0 lines (Scan 0 [0])) in *.
  assert (on_pace parts st) as Hpace.
  { apply scan_on_pace; [done|]. left. simpl. lia. }
  assert (current_word_count st = total_count lines) as Hcur.
  { unfold st. rewrite scan_current. simpl. lia. }
  destruct Hpace as [Hpace|Hpace]; lia.
Qed.

Lemma split_positions_shape_witness :
  let sp := compute_split_positions 2 [replicate 4000 97%N; [98%N]] in
  sp !! 0 = Some 0 ∧ last sp = Some 2 ∧ nondecreasing sp ∧
  2 ≤ length sp ∧ (Z.of_nat (length sp) ≤ 3)%Z ∧ Z.of_nat (length sp) = 3%Z.
Proof.
  destruct (split_positions_shape 2 [replicate 4000 97%N; [98%N]])
    as (H1 & H2 & H3 & H4 & H5 & H6); [lia|].
  repeat (split; [assumption|]).
  apply H6.
  - repeat apply Forall_cons_2; [by vm_compute ..|apply Forall_nil_2].
  - by vm_compute.
Defined.

(** C1 fails as stated: a file that is one line of 12001 characters is
    planned as 4 parts, and its split positions are three, not five. *)
Lemma split_positions_too_few :
  let lines := [replicate (Z.to_nat 12001) 97%N] in
  let parts := part_count (total_count lines) in
  parts = 4%Z ∧ compute_split_positions parts lines = [0; 1; 1] ∧
  Z.of_nat (length (compute_split_positions parts lines)) ≠ (parts + 1)%Z.
Proof. by vm_compute. Qed.

(** C6, as the code has it: after a line is added to the running total, a
    position just after that line is recorded exactly when the total has
    reached the number of recorded positions times 4000 and fewer than
    [parts] positions are recorded; and in a 10-line document whose first
    three lines total 4100 characters while the first two total fewer than
    4000, two parts are split at index 3. *)
Theorem scan_records_exactly_when :
  (∀ (parts : Z) (pre : list str) (line : str),
     let st := scan parts 0 pre (Scan 0 [0]) in
     let st' := scan parts 0 (pre ++ [line]) (Scan 0 [0]) in
     let total := (current_word_count st + visible_count line)%Z in
     let recorded := Z.of_nat (length (split_positions st)) in
     current_word_count st' = total ∧
     ((recorded * 4000 ≤ total)%Z ∧ (recorded < parts)%Z →
      split_positions st' = split_positions st ++ [length pre + 1]) ∧
     (¬ ((recorded * 4000 ≤ total)%Z ∧ (recorded < parts)%Z) →
      split_positions st' = split_positions st)) ∧
  (∀ lines : list str,
     length lines = 10 →
     total_count (take 3 lines) = 4100%Z →
     (total_count (take 2 lines) < 4000)%Z →
     compute_split_positions 2 lines = [0; 3; 10]).
Proof.
  split.
  - intros parts pre line st st' total recorded. subst st'.
    rewrite scan_snoc. fold st. split; [apply scan_step_current|]. split.
    + intros [H1 H2]. by rewrite scan_step_record.
    + intros H. by rewrite scan_step_skip.
  - intros lines Hlen H3 H2.
    destruct lines as [|l1 [|l2 [|l3 rest]]]; simpl in Hlen; try lia.
    simpl in H3, H2.
    pose proof (visible_count_nonneg l1). pose proof (visible_count_nonneg l2).
    unfold compute_split_positions. cbn [scan].
    rewrite (scan_step_skip 2 (Scan 0 [0]) 0 l1) by (simpl; lia).
    rewrite (scan_step_skip 2 _ 1 l2) by (simpl; lia).
    rewrite (scan_step_record 2 _ 2 l3) by (simpl; lia).
    rewrite scan_full by (simpl; lia). simpl. do 3 f_equal. lia.
Qed.

Lemma scan_records_exactly_when_witness :
  split_positions (scan 2 0 ([] ++ [replicate 4000 97%N]) (Scan 0 [0]))
  = [0] ++ [0 + 1] ∧
  split_positions (scan 2 0 ([] ++ [replicate 3999 97%N]) (Scan 0 [0])) = [0] ∧
  compute_split_positions 2
    ([replicate 2000 97%N; replicate 1999 97%N; replicate 101 97%N]
     ++ replicate 7 []) = [0; 3; 10].
Proof.
  destruct scan_records_exactly_when as [Hstep Hdoc].
  split; [|split].
  - destruct (Hstep 2%Z [] (replicate 4000 97%N)) as (_ & H & _).
    apply H. by vm_compute.
  - destruct (Hstep 2%Z [] (replicate 3999 97%N)) as (_ & _ & H).
    apply H. vm_compute. by intros [? _].
  - apply Hdoc; vm_compute; reflexivity.
Defined.

(** C6's example fails as stated: when the first line alone holds the
    4100 characters, the first recorded position is 1. *)
Lemma first_split_not_at_three :
  let lines := replicate 4100 97%N :: replicate 9 [] in
  length lines = 10 ∧ total_count (take 3 lines) = 4100%Z ∧
  compute_split_positions 2 lines = [0; 1; 10] ∧
  compute_split_positions 2 lines !! 1 ≠ Some 3.
Proof. by vm_compute. Qed.

(** ** Writing the parts (lines 78-106) *)

Lemma slice_app {A} (a b c : nat) (l : list A) :
  a ≤ b → b ≤ c → slice a b l ++ slice b c l = slice a c l.
Proof.
  intros Hab Hbc. unfold slice.
  replace (drop b l) with (drop (b - a) (drop a l))
    by (rewrite drop_drop; f_equal; lia).
  rewrite take_take_drop. f_equal. lia.
Qed.

Lemma slice_all {A} (l : list A) : slice 0 (length l) l = l.
Proof. unfold slice. rewrite Nat.sub_0_r. simpl. apply firstn_all. Qed.

Lemma slice_empty {A} (a : nat) (l : list A) : slice a a l = [].
Proof. unfold slice. by rewrite Nat.sub_diag. Qed.

Lemma part_lines_run (lines : list str) (sp : list nat) (i : nat) (w : world) :
  part_lines lines sp i w
  = (w, match slice_of lines sp i with
        | Some part => Ok part
        | None => Raise IndexError
        end).
Proof.
  unfold part_lines, slice_of, bind, index.
  destruct (sp !! i) as [a|] eqn:Ha; simpl; [|done].
  case_bool_decide as Hi.
  - destruct (lookup_lt_is_Some_2 sp (i + 1) Hi) as [b Hb].
    by rewrite Hb.
  - rewrite (lookup_ge_None_2 sp (i + 1)) by lia. done.
Qed.

Lemma write_part_run (fp : path) (lines suffixes : list str) (sp : list nat)
    (i : nat) (w : world) :
  write_part fp lines suffixes sp i w
  = match slice_of lines sp i, suffixes !! i with
    | Some part, Some suffix =>
        if decide (part_target fp suffix ∈ write_denied w)
        then (w, Raise PermissionError)
        else (written w [part_target fp suffix] [join_nl part],
              Ok (part_target fp suffix))
    | _, _ => (w, Raise IndexError)
    end.
Proof.
  unfold write_part, bind. rewrite part_lines_run.
  destruct (slice_of lines sp i) as [part|]; [|done].
  unfold index. destruct (suffixes !! i) as [suffix|]; simpl; [|done].
  unfold write_text, part_target. by case_decide.
Qed.

Lemma written_nil (w : world) : written w [] [] = w.
Proof. destruct w. unfold written. simpl. by rewrite app_nil_r. Qed.

Lemma written_cons (w : world) (p : path) (c : str) (ps : list path)
    (cs : list str) :
  written (written w [p] [c]) ps cs = written w (p :: ps) (c :: cs).
Proof. unfold written. simpl. by rewrite <- app_assoc. Qed.

Lemma written_lookup_ne (w : world) (ps : list path) (cs : list str)
    (q : path) :
  q ∉ ps → files (written w ps cs) !! q = files w !! q.
Proof.
  unfold written. simpl. generalize (files w).
  revert cs. induction ps as [|p ps IH]; intros cs m Hq; [done|].
  destruct cs as [|c cs]; [done|]. simpl.
  apply not_elem_of_cons in Hq as [Hne Hq].
  rewrite IH by done. by rewrite lookup_insert_ne.
Qed.

(** What a run of the writing loop does: it writes the parts of a prefix
    of [todo], and either that prefix is all of [todo] or the next part
    could not be produced. *)
Lemma write_parts_run (fp : path) (lines suffixes : list str) (sp : list nat)
    (todo : list nat) (created : list path) (w : world) :
  ∃ (ps : list path) (pls : list (list str)) (r : result (list path)),
    write_parts fp lines suffixes sp todo created w
    = (written w ps (join_nl <$> pls), r) ∧
    Forall2 (λ i p, part_target fp <$> suffixes !! i = Some p)
            (take (length ps) todo) ps ∧
    Forall2 (λ i part, slice_of lines sp i = Some part)
            (take (length ps) todo) pls ∧
    Forall (λ p, p ∉ write_denied w) ps ∧
    ((length ps = length todo ∧ r = Ok (created ++ ps))
     ∨ (length ps < length todo ∧ ∃ e, r = Raise e)).
Proof.
  revert created w. induction todo as [|i todo IH]; intros created w.
  - exists [], [], (Ok created). simpl. rewrite written_nil, app_nil_r.
    split; [done|]. do 3 (split; [constructor|]). by left.
  - simpl. unfold bind. rewrite write_part_run.
    destruct (slice_of lines sp i) as [part|] eqn:Hpart;
      [destruct (suffixes !! i) as [suffix|] eqn:Hsuffix;
       [case_decide as Hdenied|]|].
    2: {
      destruct (IH (created ++ [part_target fp suffix])
                  (written w [part_target fp suffix] [join_nl part]))
        as (ps & pls & r & Hrun & Hps & Hpls & Hok & Hr).
      exists (part_target fp suffix :: ps), (part :: pls), r.
      simpl. rewrite written_cons in Hrun. rewrite <- app_assoc in Hr.
      split; [done|].
      split; [constructor; [by rewrite Hsuffix|done]|].
      split; [by constructor|]. split; [by constructor|].
      destruct Hr as [[Hlen Hr]|[Hlen Hr]]; [left|right];
        (split; [lia|done]). }
    all: eexists [], [], (Raise _); rewrite written_nil; (split; [done|]);
      do 3 (split; [constructor|]); right; (split; [simpl; lia|]); by eexists.
Qed.

Lemma rfind_lookup (c : N) (s : str) (i : nat) :
  rfind c s = Some i → s !! i = Some c.
Proof.
  revert i. induction s as [|x s IH]; intros i; simpl; [done|].
  destruct (rfind c s) as [j|].
  - intros [= <-]. simpl. by apply IH.
  - destruct (N.eqb_spec x c) as [->|]; [|done]. by intros [= <-].
Qed.

(** The name of a path is its stem followed by nothing or by a suffix that
    starts with a dot. *)
Lemma stem_split (p : path) :
  ∃ rest, name p = stem p ++ rest ∧ (rest = [] ∨ ∃ r, rest = 46%N :: r).
Proof.
  unfold stem. destruct (rfind 46 (name p)) as [i|] eqn:Hi.
  - case_match.
    + exists (drop i (name p)). split; [by rewrite take_drop|].
      right. apply rfind_lookup in Hi.
      exists (drop (S i) (name p)). by apply drop_S.
    + exists []. split; [by rewrite app_nil_r|by left].
  - exists []. split; [by rewrite app_nil_r|by left].
Qed.

Lemma part_suffix_head (word_count : Z) (suffix : str) :
  suffix ∈ part_suffixes word_count →
  ∃ c r, suffix = c :: r ∧ c ≠ 46%N.
Proof.
  unfold part_suffixes.
  destruct ((4000 <? word_count) && (word_count <? 8000))%Z;
    [|destruct ((8000 <=? word_count) && (word_count <? 12000))%Z].
  - intros H. repeat (apply elem_of_cons in H as [->|H]; [by eexists _, _|]).
    by apply elem_of_nil in H.
  - intros H. repeat (apply elem_of_cons in H as [->|H]; [by eexists _, _|]).
    by apply elem_of_nil in H.
  - intros (i & -> & _)%list_elem_of_fmap. by eexists _, _.
Qed.

(** No part is written over the file that is being split. *)
Lemma part_targets_fresh (fp : path) (word_count : Z) :
  fp ∉ part_targets fp word_count.
Proof.
  unfold part_targets.
  intros (suffix & Heq & (c & r & -> & Hc)%part_suffix_head)%list_elem_of_fmap.
  destruct (stem_split fp) as (rest & Hname & Hrest).
  assert (name fp = stem fp ++ (c :: r) ++ dot_txt) as Hname'.
  { rewrite Heq at 1. done. }
  rewrite Hname in Hname' at 1. apply app_inv_head in Hname'.
  destruct Hrest as [->|[r' ->]]; simplify_eq/=.
Qed.

Lemma nondecreasing_le_last (sp : list nat) (i a b : nat) :
  nondecreasing sp → last sp = Some b → sp !! i = Some a → a ≤ b.
Proof.
  intros Hnd Hlast Hi. rewrite last_lookup in Hlast.
  apply (Hnd i (pred (length sp)) a b); [|done..].
  apply lookup_lt_Some in Hi. lia.
Qed.

(** The parts of a prefix of the positions put together are the lines up
    to the next position. *)
Lemma slices_concat (lines : list str) (sp : list nat) :
  sp !! 0 = Some 0 → nondecreasing sp → last sp = Some (length lines) →
  ∀ (n : nat) (pls : list (list str)),
    Forall2 (λ i part, slice_of lines sp i = Some part) (seq 0 n) pls →
    concat pls = slice 0 (default (length lines) (sp !! n)) lines.
Proof.
  intros H0 Hnd Hlast. induction n as [|n IH]; intros pls Hpls.
  - apply Forall2_nil_inv_l in Hpls as ->. rewrite H0. simpl.
    by rewrite slice_empty.
  - rewrite seq_S in Hpls. simpl in Hpls.
    apply Forall2_app_inv_l in Hpls as (pls1 & pls2 & H1 & H2 & ->).
    apply Forall2_cons_inv_l in H2 as (part & pls3 & Hpart & H3 & ->).
    apply Forall2_nil_inv_l in H3 as ->.
    rewrite concat_app, (IH _ H1). simpl. rewrite app_nil_r.
    unfold slice_of in Hpart.
    destruct (sp !! n) as [a|] eqn:Ha; [|done]. simplify_eq/=.
    replace (S n) with (n + 1) by lia.
    apply slice_app; [lia|].
    destruct (sp !! (n + 1)) as [b|] eqn:Hb; simpl.
    + apply (Hnd n (n + 1) a b); [lia|done..].
    + by eapply nondecreasing_le_last.
Qed.

(** When every part of a split exists, the parts in order are the
    document. *)
Lemma parts_cover_document (parts : Z) (lines : list str)
    (pls : list (list str)) :
  (1 ≤ parts)%Z →
  Forall2 (λ i part,
             slice_of lines (compute_split_positions parts lines) i
             = Some part)
          (seq 0 (Z.to_nat parts)) pls →
  concat pls = lines.
Proof.
  intros Hparts Hpls.
  destruct (split_positions_wf parts lines Hparts)
    as (_ & H0 & Hlast & Hnd & _ & Hlen).
  rewrite (slices_concat lines _ H0 Hnd Hlast _ _ Hpls).
  set (sp := compute_split_positions parts lines) in *.
  destruct (sp !! Z.to_nat parts) as [b|] eqn:Hb; simpl;
    [|apply slice_all].
  assert (b = length lines) as ->; [|apply slice_all].
  rewrite last_lookup in Hlast.
  apply lookup_lt_Some in Hb as Hlt.
  replace (pred (length sp)) with (Z.to_nat parts) in Hlast by lia.
  congruence.
Qed.

Lemma targets_of_lookups (fp : path) (suffixes : list str) (k : nat)
    (ps : list path) :
  Forall2 (λ i p, part_target fp <$> suffixes !! i = Some p) (seq 0 k) ps →
  ps = part_target fp <$> take k suffixes.
Proof.
  revert ps. induction k as [|k IH]; intros ps Hps.
  - apply Forall2_nil_inv_l in Hps as ->. by rewrite take_0.
  - rewrite seq_S in Hps. simpl in Hps.
    apply Forall2_app_inv_l in Hps as (ps1 & ps2 & H1 & H2 & ->).
    apply Forall2_cons_inv_l in H2 as (p & ps3 & Hp & H3 & ->).
    apply Forall2_nil_inv_l in H3 as ->.
    destruct (suffixes !! k) as [suffix|] eqn:Hk; simplify_eq/=.
    rewrite (take_S_r _ _ _ Hk), fmap_app. simpl. by rewrite <- (IH _ H1).
Qed.

(** The two ways a split ends: every part is written and then the
    original is removed, or some parts are written, nothing is removed
    and the empty list is returned. *)
Lemma split_text_file_run (fp : path) (word_count : Z) (w : world) :
  (∃ (content : str) (pls : list (list str)),
     files w !! fp = Some (Text content) ∧
     Forall2 (λ i part,
                slice_of (split_nl content)
                  (compute_split_positions (part_count word_count)
                     (split_nl content)) i = Some part)
             (seq 0 (Z.to_nat (part_count word_count))) pls ∧
     Forall (λ p, p ∉ write_denied w) (part_targets fp word_count) ∧
     split_text_file fp word_count w
     = (let w1 := written w (part_targets fp word_count) (join_nl <$> pls) in
        World (delete fp (files w1)) (write_denied w) (unlink_denied w)
              (log w1 ++ [Unlink fp]),
        Ok (part_targets fp word_count)))
  ∨ (∃ (ps : list path) (cs : list str),
       ps `prefix_of` part_targets fp word_count ∧
       length ps = length cs ∧
       Forall (λ p, p ∉ write_denied w) ps ∧
       split_text_file fp word_count w = (written w ps cs, Ok [])).
Proof.
  unfold split_text_file, try_except, split_text_file_body, bind, read_text.
  destruct (files w !! fp) as [[content|]|] eqn:Hfp.
  2, 3: right; exists [], []; rewrite written_nil;
    split; [apply prefix_nil|by repeat constructor].
  set (lines := split_nl content).
  set (parts := part_count word_count).
  set (sp := compute_split_positions parts lines).
  destruct (write_parts_run fp lines (part_suffixes word_count) sp
              (seq 0 (Z.to_nat parts)) [] w)
    as (ps & pls & r & -> & Hps & Hpls & Hok & Hr).
  assert (length (part_suffixes word_count) = Z.to_nat parts) as Hlen.
  { pose proof (part_suffixes_length word_count). unfold parts. lia. }
  assert (length ps ≤ Z.to_nat parts) as Hle.
  { rewrite length_seq in Hr. destruct Hr as [[-> _]|[? _]]; lia. }
  rewrite take_seq, Nat.min_l in Hps, Hpls by done.
  apply targets_of_lookups in Hps.
  assert (ps `prefix_of` part_targets fp word_count) as Hprefix.
  { rewrite Hps. unfold part_targets. rewrite fmap_take. apply prefix_take. }
  assert (length ps = length (join_nl <$> pls)) as Hcs.
  { rewrite length_fmap. apply Forall2_length in Hpls.
    rewrite length_seq in Hpls. done. }
  destruct Hr as [[Hall ->]|[_ [e ->]]].
  2: { right. by exists ps, (join_nl <$> pls). }
  rewrite length_seq in Hall.
  assert (ps = part_targets fp word_count) as Htargets.
  { rewrite Hps. unfold part_targets. f_equal.
    apply take_ge. lia. }
  unfold unlink. rewrite written_lookup_ne, Hfp
    by (rewrite Htargets; apply part_targets_fresh).
  case_decide as Hdenied.
  { right. by exists ps, (join_nl <$> pls). }
  left. exists content, pls. rewrite Hall in Hpls. subst ps.
  by repeat split.
Qed.

Lemma unlink_not_among_writes (fp : path) (ps : list path) (cs : list str) :
  Unlink fp ∉ zip_with Write ps cs.
Proof.
  revert cs. induction ps as [|p ps IH]; intros [|c cs]; simpl;
    try apply not_elem_of_nil.
  apply not_elem_of_cons. split; [done|apply IH].
Qed.

(** C2: when a split returns the files it created, their contents are the
    joined lines of parts that, put together in order, are exactly the
    lines of the original file. *)
Theorem parts_concatenate_to_document (fp : path) (word_count : Z)
    (w : world) (created : list path) :
  (split_text_file fp word_count w).2 = Ok created →
  created ≠ [] →
  ∃ (content : str) (pls : list (list str)),
    files w !! fp = Some (Text content) ∧
    length pls = length created ∧
    log (split_text_file fp word_count w).1
    = log w ++ zip_with Write created (join_nl <$> pls) ++ [Unlink fp] ∧
    concat pls = split_nl content.
Proof.
  intros Hr Hne.
  destruct (split_text_file_run fp word_count w)
    as [(content & pls & Hfp & Hpls & _ & Hrun)
       |(ps & cs & _ & _ & _ & Hrun)];
    rewrite Hrun in Hr |- *; simpl in *; [|congruence].
  injection Hr as <-. exists content, pls.
  assert (length pls = length (part_targets fp word_count)) as Hlen.
  { apply Forall2_length in Hpls. rewrite length_seq in Hpls.
    unfold part_targets. rewrite length_fmap.
    pose proof (part_suffixes_length word_count). lia. }
  split; [done|]. split; [done|]. split; [by rewrite <- app_assoc|].
  apply (parts_cover_document (part_count word_count)); [|done].
  destruct (part_targets fp word_count) eqn:Ht; [done|].
  unfold part_targets in Ht. apply (f_equal length) in Ht.
  rewrite length_fmap in Ht. simpl in Ht.
  pose proof (part_suffixes_length word_count). lia.
Qed.

Lemma parts_concatenate_to_document_witness :
  ∃ (content : str) (pls : list (list str)),
    files Sample.plain_world !! Sample.ch1 = Some (Text content) ∧
    length pls = length (part_targets Sample.ch1 9000) ∧
    log (split_text_file Sample.ch1 9000 Sample.plain_world).1
    = log Sample.plain_world
      ++ zip_with Write (part_targets Sample.ch1 9000) (join_nl <$> pls)
      ++ [Unlink Sample.ch1] ∧
    concat pls = split_nl content.
Proof.
  apply (parts_concatenate_to_document Sample.ch1 9000 Sample.plain_world).
  - vm_compute. reflexivity.
  - vm_compute. discriminate.
Defined.

(** C3: the original is removed only as the last effect, after every part
    has been written; otherwise some parts are written, the original is
    untouched and the empty list is returned.  When the file of any part
    cannot be written, the second case holds. *)
Theorem original_removed_after_all_writes (fp : path) (word_count : Z)
    (w : world) :
  let w' := (split_text_file fp word_count w).1 in
  let r := (split_text_file fp word_count w).2 in
  ((∃ contents : list str,
      length contents = length (part_targets fp word_count) ∧
      Forall (λ p, p ∉ write_denied w) (part_targets fp word_count) ∧
      r = Ok (part_targets fp word_count) ∧
      log w' = log w ++ zip_with Write (part_targets fp word_count) contents
                     ++ [Unlink fp] ∧
      is_Some (files w !! fp) ∧ files w' !! fp = None)
   ∨ (∃ (created : list path) (contents : list str),
        created `prefix_of` part_targets fp word_count ∧
        length contents = length created ∧
        r = Ok [] ∧
        log w' = log w ++ zip_with Write created contents ∧
        files w' !! fp = files w !! fp)) ∧
  (∀ p : path,
     p ∈ part_targets fp word_count → p ∈ write_denied w →
     r = Ok [] ∧ files w' !! fp = files w !! fp ∧
     Unlink fp ∉ drop (length (log w)) (log w')).
Proof.
  intros w' r. subst w' r.
  destruct (split_text_file_run fp word_count w)
    as [(content & pls & Hfp & Hpls & Hok & Hrun)
       |(ps & cs & Hprefix & Hlen & Hok & Hrun)];
    rewrite Hrun; simpl.
  - split.
    + left. exists (join_nl <$> pls). rewrite length_fmap.
      split.
      { apply Forall2_length in Hpls. rewrite length_seq in Hpls.
        unfold part_targets. rewrite length_fmap.
        pose proof (part_suffixes_length word_count). lia. }
      split; [done|]. split; [done|]. split; [by rewrite <- app_assoc|].
      split; [by rewrite Hfp|]. apply lookup_delete_eq.
    + intros p Hp Hdenied. rewrite Forall_forall in Hok.
      by destruct (Hok p Hp).
  - assert (files (written w ps cs) !! fp = files w !! fp) as Hkept.
    { apply written_lookup_ne. intros Hin.
      apply (part_targets_fresh fp word_count).
      destruct Hprefix as [k ->]. apply elem_of_app. by left. }
    split.
    + right. by exists ps, cs.
    + intros p _ _. split; [done|]. split; [done|].
      rewrite drop_app_length. apply unlink_not_among_writes.
Qed.

Lemma original_removed_after_all_writes_witness :
  (split_text_file Sample.ch1 9000 Sample.third_part_denied).2 = Ok [] ∧
  files (split_text_file Sample.ch1 9000 Sample.third_part_denied).1
    !! Sample.ch1
  = files Sample.third_part_denied !! Sample.ch1 ∧
  Unlink Sample.ch1
    ∉ drop (length (log Sample.third_part_denied))
        (log (split_text_file Sample.ch1 9000 Sample.third_part_denied).1).
Proof.
  destruct (original_removed_after_all_writes Sample.ch1 9000
              Sample.third_part_denied) as [_ H].
  apply (H (part_target Sample.ch1 xia)).
  - apply (list_elem_of_lookup_2 _ 2). reflexivity.
  - unfold Sample.third_part_denied. simpl.
    apply elem_of_singleton_2. reflexivity.
Defined.

(** ** The folder analysis (lines 278-357) *)

Lemma count_words_in_file_run (p : path) (w : world) :
  count_words_in_file p w = (w, Ok (count_of w p)).
Proof.
  unfold count_words_in_file, try_except, bind, read_text, count_of.
  by destruct (files w !! p) as [[content|]|].
Qed.

Lemma analyze_files_run (txt_files : list path) (file_data : list file_datum)
    (long_files : list long_file) (w : world) :
  analyze_files txt_files file_data long_files w
  = (w, Ok (file_data ++ (datum_of w <$> txt_files),
            long_files ++ long_files_of w txt_files)).
Proof.
  revert file_data long_files.
  induction txt_files as [|p txt_files IH]; intros file_data long_files.
  - unfold long_files_of. simpl. by rewrite !app_nil_r.
  - simpl. unfold bind. rewrite count_words_in_file_run, IH.
    unfold long_files_of. rewrite filter_cons.
    destruct (Z.ltb_spec 4000 (count_of w p)) as [Hlong|Hshort].
    + rewrite decide_True by done. simpl.
      by rewrite <- !app_assoc.
    + rewrite decide_False by lia. by rewrite <- !app_assoc.
Qed.

Lemma insert_desc_perm (d : file_datum) (l : list file_datum) :
  insert_desc d l ≡ₚ d :: l.
Proof.
  induction l as [|e l IH]; simpl; [done|].
  case_match; [|done]. rewrite IH. apply Permutation_swap.
Qed.

Lemma sort_desc_perm (l : list file_datum) : sort_desc l ≡ₚ l.
Proof.
  induction l as [|d l IH]; simpl; [done|].
  rewrite insert_desc_perm. by constructor.
Qed.

Lemma dict_keys_subset (long_files : list long_file) (p : path) :
  p ∈ file_vars_keys long_files → p ∈ long_files.*2.
Proof.
  unfold file_vars_keys.
  assert (∀ (ps keys : list path),
            p ∈ foldl dict_add_key keys ps → p ∈ keys ∨ p ∈ ps) as Haux.
  { induction ps as [|q ps IH]; intros keys; simpl; [by left|].
    intros [Hin|Hin]%IH; [|right; by right].
    unfold dict_add_key in Hin. case_decide; [by left|].
    apply elem_of_app in Hin as [Hin|Hin%list_elem_of_singleton];
      [by left|right; subst; by left]. }
  intros [Hin|Hin]%Haux; [by apply elem_of_nil in Hin|done].
Qed.

Lemma next_item_run (long_files : list long_file) (p : path) (w : world) :
  p ∈ long_files.*2 →
  ∃ item, next_item long_files p w = (w, Ok item) ∧
          item ∈ long_files ∧ item.2 = p.
Proof.
  induction long_files as [|item long_files IH]; simpl.
  - intros Hin. by apply elem_of_nil in Hin.
  - intros Hin. case_decide as Hp.
    + exists item. split; [done|]. split; [by left|done].
    + apply elem_of_cons in Hin as [Hin|Hin]; [congruence|].
      destruct (IH Hin) as (item' & Hrun & Hitem & Hpath).
      exists item'. split; [done|]. split; [by right|done].
Qed.

(** The selection never raises, and every selected entry is a checked
    entry of [long_files] filed under its own path. *)
Lemma select_files_run (long_files : list long_file) (checked : path → bool)
    (keys : list path) (w : world) :
  (∀ p, p ∈ keys → p ∈ long_files.*2) →
  ∃ sel, select_files long_files checked keys w = (w, Ok sel) ∧
         Forall (λ s, s.2 ∈ long_files ∧ s.2.2 = s.1) sel.
Proof.
  induction keys as [|p keys IH]; intros Hkeys; simpl.
  - by exists [].
  - destruct IH as (sel & Hrun & Hsel).
    { intros q Hq. apply Hkeys. by right. }
    destruct (checked p); [|by exists sel].
    destruct (next_item_run long_files p w) as (item & Hitem & Hin & Hpath).
    { apply Hkeys. by left. }
    exists ((p, item) :: sel). unfold bind. rewrite Hitem, Hrun.
    split; [done|]. by constructor.
Qed.

(** A split never raises: its handler returns the empty list. *)
Lemma split_text_file_total (fp : path) (word_count : Z) (w : world) :
  ∃ created, (split_text_file fp word_count w).2 = Ok created.
Proof.
  unfold split_text_file, try_except.
  destruct (split_text_file_body fp word_count w) as [w' [created|e]];
    by eexists.
Qed.

Lemma split_one_run (t : tally) (fp q : path) (filename : str)
    (word_count : Z) (w : world) :
  split_one t (fp, (filename, word_count, q)) w
  = ((split_text_file fp word_count w).1,
     Ok (match (split_text_file fp word_count w).2 with
         | Ok (_ :: _) => Tally (success_count t + 1) (error_count t)
         | _ => Tally (success_count t) (error_count t + 1)
         end)).
Proof.
  unfold split_one, try_except, bind.
  destruct (split_text_file_total fp word_count w) as [created Hr].
  destruct (split_text_file fp word_count w) as [w' r]. simpl in *.
  subst r. by destruct created.
Qed.

Lemma split_batch_app (pre post : list (path * long_file)) (t : tally)
    (w : world) :
  split_batch (pre ++ post) t w
  = bind (split_batch pre t) (split_batch post) w.
Proof.
  revert t w. induction pre as [|sel pre IH]; intros t w; simpl; [done|].
  unfold bind in *. destruct (split_one t sel w) as [w1 [t1|e]]; [|done].
  apply IH.
Qed.

(** The batch never raises and counts every selected file once. *)
Lemma split_batch_total (selected : list (path * long_file)) (t : tally)
    (w : world) :
  ∃ w' t', split_batch selected t w = (w', Ok t') ∧
           success_count t' + error_count t'
           = success_count t + error_count t + length selected.
Proof.
  revert t w. induction selected as [|[fp [[fn wc] q]] sel IH]; intros t w.
  - exists w, t. simpl. split; [done|lia].
  - cbn [split_batch]. unfold bind. rewrite split_one_run.
    match goal with |- context [split_batch sel ?t1 ?w1] =>
      destruct (IH t1 w1) as (w' & t' & Hrun & Hcount) end.
    exists w', t'. split; [done|]. rewrite Hcount.
    destruct (split_text_file fp wc w).2 as [[|]|]; simpl; lia.
Qed.

Lemma split_selected_files_total (long_files : list long_file)
    (checked : path → bool) (confirmed : bool) (w : world) :
  ∃ w' b, split_selected_files long_files checked confirmed w = (w', Ok b).
Proof.
  unfold split_selected_files, bind.
  destruct (select_files_run long_files checked (file_vars_keys long_files) w
              (dict_keys_subset long_files)) as (sel & -> & _).
  destruct sel as [|s sel]; [by eexists _, _|].
  destruct confirmed; [|by eexists _, _].
  destruct (split_batch_total (s :: sel) (Tally 0 0) w)
    as (w' & t' & -> & _).
  by eexists _, _.
Qed.

(** The analysis of a non-empty listing always returns its report. *)
Lemma analyze_folder_run (txt_files : list path) (action : dialog_action)
    (w : world) :
  txt_files ≠ [] →
  ∃ w' b,
    analyze_folder true txt_files action w
    = (w', Ok (Some (Analysis (csv_row <$> sort_desc (datum_of w <$> txt_files))
                              (long_files_of w txt_files) b))).
Proof.
  intros Hne. unfold analyze_folder. simpl.
  destruct txt_files as [|p txt_files]; [done|].
  unfold bind at 1. rewrite analyze_files_run. cbn [fst snd app].
  destruct (long_files_of w (p :: txt_files)) as [|item items] eqn:Hlong;
    [by eexists _, _|].
  destruct action as [checked confirmed|]; [|by eexists _, _].
  unfold bind.
  destruct (split_selected_files_total (item :: items) checked confirmed w)
    as (w' & b & ->).
  by eexists _, _.
Qed.

Lemma elem_of_long_files_of (w : world) (txt_files : list path)
    (item : long_file) :
  item ∈ long_files_of w txt_files ↔
  ∃ q, q ∈ txt_files ∧ item = long_entry_of w q ∧ (4000 < count_of w q)%Z.
Proof.
  unfold long_files_of. rewrite list_elem_of_fmap. split.
  - intros (q & -> & [Hq Hin]%list_elem_of_filter). by exists q.
  - intros (q & Hin & -> & Hq). exists q. split; [done|].
    by apply list_elem_of_filter.
Qed.

Lemma statuses_differ : too_long_status ≠ safe_status.
Proof. discriminate. Qed.

(** The events of one split: writes, and at most the removal of the file
    that is split. *)
Lemma split_text_file_unlinks (fp : path) (word_count : Z) (w : world) :
  ∃ evs, log (split_text_file fp word_count w).1 = log w ++ evs ∧
         ∀ q, Unlink q ∈ evs → q = fp.
Proof.
  destruct (split_text_file_run fp word_count w)
    as [(content & pls & _ & _ & _ & Hrun)|(ps & cs & _ & _ & _ & Hrun)];
    rewrite Hrun; simpl.
  - eexists. rewrite <- app_assoc. split; [done|].
    intros q [Hq|Hq]%elem_of_app.
    + by apply unlink_not_among_writes in Hq.
    + apply list_elem_of_singleton in Hq. congruence.
  - eexists. split; [done|]. intros q Hq.
    by apply unlink_not_among_writes in Hq.
Qed.

(** The batch calls the splitter on the selected files, one after the
    other, and on nothing else: a file it removes is a selected file. *)
Lemma split_batch_unlinks (selected : list (path * long_file)) (t : tally)
    (w : world) :
  ∃ evs, log (split_batch selected t w).1 = log w ++ evs ∧
         ∀ q, Unlink q ∈ evs → q ∈ selected.*1.
Proof.
  revert t w. induction selected as [|[fp [[fn wc] p]] sel IH]; intros t w.
  - exists []. simpl. rewrite app_nil_r. split; [done|].
    intros q Hq. by apply elem_of_nil in Hq.
  - cbn [split_batch]. unfold bind. rewrite split_one_run.
    destruct (split_text_file_unlinks fp wc w) as (evs1 & Hlog1 & Hev1).
    match goal with |- context [split_batch sel ?t1 ?w1] =>
      destruct (IH t1 w1) as (evs2 & Hlog2 & Hev2) end.
    exists (evs1 ++ evs2). rewrite Hlog2, Hlog1, <- app_assoc.
    split; [done|]. intros q [Hq|Hq]%elem_of_app; simpl.
    + rewrite (Hev1 q Hq). by left.
    + right. by apply Hev2.
Qed.

(** The run of the analysis: the report, the long files, and then the
    batch over the files [sel] that the dialog hands to the splitter. *)
Lemma analyze_folder_batch (txt_files : list path) (action : dialog_action)
    (w : world) :
  txt_files ≠ [] →
  ∃ w' sel t,
    analyze_folder true txt_files action w
    = (w', Ok (Some (Analysis
                       (csv_row <$> sort_desc (datum_of w <$> txt_files))
                       (long_files_of w txt_files)
                       (match sel with [] => None | _ :: _ => Some t end)))) ∧
    (match action with
     | SplitSelected checked true =>
         select_files (long_files_of w txt_files) checked
           (file_vars_keys (long_files_of w txt_files)) w = (w, Ok sel)
     | _ => sel = []
     end) ∧
    split_batch sel (Tally 0 0) w = (w', Ok t).
Proof.
  intros Hne. unfold analyze_folder. simpl.
  destruct txt_files as [|p txt_files]; [done|].
  unfold bind at 1. rewrite analyze_files_run. cbn [fst snd app].
  destruct (long_files_of w (p :: txt_files)) as [|item items] eqn:Hlong.
  { exists w, [], (Tally 0 0). split; [done|]. split; [|done].
    by destruct action as [checked [|]|]. }
  destruct action as [checked confirmed|].
  2: { by exists w, [], (Tally 0 0). }
  unfold bind, split_selected_files, bind.
  destruct (select_files_run (item :: items) checked
              (file_vars_keys (item :: items)) w (dict_keys_subset _))
    as (sel & Hsel & _).
  rewrite Hsel. destruct sel as [|s sel].
  { exists w, [], (Tally 0 0). split; [done|]. split; [|done].
    by destruct confirmed. }
  destruct confirmed.
  2: { by exists w, [], (Tally 0 0). }
  destruct (split_batch_total (s :: sel) (Tally 0 0) w)
    as (w' & t & Hrun & _).
  rewrite Hrun. by exists w', (s :: sel), t.
Qed.

(** C7: in the analysis of a folder every file gets a row, a row says
    too long exactly when its count is above 4000 and safe otherwise, and
    the long files are exactly the files counted above 4000.  The run
    then is the batch over [sel], the checked long files when the user
    confirms and no file otherwise: the splitter is called on the files
    of [sel], each counted above 4000, and on no other file, and every
    file removed during the run is one of them.  A file counted at
    exactly 4000 has a safe row, is not a long file, cannot be selected,
    is not handed to the splitter and is not removed. *)
Theorem too_long_iff_over_4000 (txt_files : list path)
    (action : dialog_action) (w : world) :
  txt_files ≠ [] →
  ∃ w' a sel t,
    analyze_folder true txt_files action w = (w', Ok (Some a)) ∧
    (∀ q, q ∈ txt_files → csv_row (datum_of w q) ∈ rows a) ∧
    (∀ row, row ∈ rows a →
       (row.2 = too_long_status ↔ (4000 < row.1.2)%Z) ∧
       (row.2 = safe_status ↔ (row.1.2 ≤ 4000)%Z)) ∧
    (∀ item, item ∈ long a ↔
       ∃ q, q ∈ txt_files ∧ item = long_entry_of w q
            ∧ (4000 < count_of w q)%Z) ∧
    (∀ checked w0,
       ∃ sel0,
         select_files (long a) checked (file_vars_keys (long a)) w0
         = (w0, Ok sel0) ∧
         Forall (λ s, s.2 ∈ long a ∧ (4000 < s.2.1.2)%Z) sel0 ∧
         ∀ q, count_of w q = 4000%Z → q ∉ sel0.*1) ∧
    (match action with
     | SplitSelected checked true =>
         select_files (long a) checked (file_vars_keys (long a)) w
         = (w, Ok sel)
     | _ => sel = []
     end) ∧
    split_batch sel (Tally 0 0) w = (w', Ok t) ∧
    batch a = (match sel with [] => None | _ :: _ => Some t end) ∧
    Forall (λ s, ∃ q, q ∈ txt_files ∧ (4000 < count_of w q)%Z
                      ∧ s = (q, long_entry_of w q)) sel ∧
    (∀ q, Unlink q ∈ drop (length (log w)) (log w') →
          (q ∈ sel.*1) ∧ (4000 < count_of w q)%Z) ∧
    (∀ q, q ∈ txt_files → count_of w q = 4000%Z →
       (name q, 4000%Z, safe_status) ∈ rows a ∧ (q ∉ (long a).*2) ∧
       (q ∉ sel.*1) ∧ Unlink q ∉ drop (length (log w)) (log w')).
Proof.
  intros Hne.
  destruct (analyze_folder_batch txt_files action w Hne)
    as (w' & sel & t & Hrun & Hsel & Hbatch).
  eexists w', _, sel, t. split; [exact Hrun|]. simpl.
  assert (∀ q, q ∈ txt_files →
               csv_row (datum_of w q)
               ∈ csv_row <$> sort_desc (datum_of w <$> txt_files)) as Hrow.
  { intros q Hq. apply list_elem_of_fmap_2. rewrite sort_desc_perm.
    by apply list_elem_of_fmap_2. }
  assert (Forall (λ s, ∃ q, q ∈ txt_files ∧ (4000 < count_of w q)%Z
                            ∧ s = (q, long_entry_of w q)) sel) as Hcalls.
  { assert (Forall (λ s, s.2 ∈ long_files_of w txt_files ∧ s.2.2 = s.1) sel)
      as Hall.
    { destruct action as [checked [|]|]; try (subst sel; constructor).
      destruct (select_files_run (long_files_of w txt_files) checked
                  (file_vars_keys (long_files_of w txt_files)) w
                  (dict_keys_subset _)) as (sel' & Hsel' & Hall).
      rewrite Hsel in Hsel'. by injection Hsel' as ->. }
    eapply Forall_impl; [exact Hall|]. intros [p item] [Hin Hpath].
    simpl in Hin, Hpath.
    apply elem_of_long_files_of in Hin as (q & Hq & -> & Hlong).
    simpl in Hpath. subst p. by exists q. }
  assert (∀ q, q ∈ sel.*1 → (4000 < count_of w q)%Z) as Hover.
  { intros q (s & -> & Hs)%list_elem_of_fmap.
    rewrite Forall_forall in Hcalls.
    by destruct (Hcalls s Hs) as (q & _ & Hlong & ->). }
  assert (∀ q, Unlink q ∈ drop (length (log w)) (log w') → q ∈ sel.*1)
    as Hremoved.
  { destruct (split_batch_unlinks sel (Tally 0 0) w) as (evs & Hlog & Hev).
    rewrite Hbatch in Hlog. simpl in Hlog.
    rewrite Hlog, drop_app_length. exact Hev. }
  split; [done|]. split; [|split; [|split; [|split; [done|]]]].
  - intros row (d & -> & _)%list_elem_of_fmap. unfold csv_row. simpl.
    pose proof statuses_differ.
    destruct (Z.ltb_spec 4000 (fd_word_count d)); split; split;
      intros; try done; try lia; congruence.
  - apply elem_of_long_files_of.
  - intros checked w0.
    destruct (select_files_run (long_files_of w txt_files) checked
                (file_vars_keys (long_files_of w txt_files)) w0
                (dict_keys_subset _)) as (sel0 & Hsel0 & Hall).
    exists sel0. split; [done|]. split.
    + eapply Forall_impl; [exact Hall|]. intros s [Hin _].
      split; [done|].
      apply elem_of_long_files_of in Hin as (q & _ & -> & Hq). done.
    + intros q Hq (s & -> & Hs)%list_elem_of_fmap.
      rewrite Forall_forall in Hall. destruct (Hall s Hs) as [Hin Hpath].
      apply elem_of_long_files_of in Hin as (q' & _ & Heq & Hq').
      rewrite Heq in Hpath. simpl in Hpath.
      assert (count_of w q' = 4000%Z) by (rewrite Hpath; exact Hq). lia.
  - split; [done|]. split; [done|]. split; [done|]. split.
    + intros q Hq%Hremoved. split; [done|by apply Hover].
    + intros q Hin Hq.
      assert (q ∉ sel.*1) as Hnot.
      { intros Hsel'%Hover. lia. }
      split; [|split; [|split; [done|]]].
      * specialize (Hrow q Hin). unfold csv_row, datum_of in Hrow.
        simpl in Hrow. by rewrite Hq in Hrow.
      * intros (item & -> & Hitem)%list_elem_of_fmap.
        apply elem_of_long_files_of in Hitem as (q' & _ & -> & Hq').
        simpl in Hq. lia.
      * intros Hun%Hremoved. done.
Qed.

Lemma too_long_iff_over_4000_witness :
  ∃ w' a sel t,
    analyze_folder true [Sample.ch1; Sample.ch3]
      (SplitSelected (λ _, true) true) Sample.boundary_world
    = (w', Ok (Some a)) ∧
    csv_row (datum_of Sample.boundary_world Sample.ch1) ∈ rows a ∧
    long_entry_of Sample.boundary_world Sample.ch1 ∈ long a ∧
    split_batch sel (Tally 0 0) Sample.boundary_world = (w', Ok t) ∧
    (name Sample.ch3, 4000%Z, safe_status) ∈ rows a ∧
    (Sample.ch3 ∉ (long a).*2) ∧
    (Sample.ch3 ∉ sel.*1) ∧
    Unlink Sample.ch3
      ∉ drop (length (log Sample.boundary_world)) (log w').
Proof.
  destruct (too_long_iff_over_4000 [Sample.ch1; Sample.ch3]
              (SplitSelected (λ _, true) true) Sample.boundary_world)
    as (w' & a & sel & t & Hrun & Hrows & _ & Hlong & _ & _ & Hbatch & _
        & _ & _ & Hexact).
  { discriminate. }
  exists w', a, sel, t. split; [exact Hrun|]. split; [|split; [|split]].
  - apply Hrows. left.
  - apply Hlong. exists Sample.ch1. split; [left|]. split; [reflexivity|].
    vm_compute. reflexivity.
  - exact Hbatch.
  - apply Hexact.
    + right. left.
    + vm_compute. reflexivity.
Defined.

(** C10: when reading a path raises, its count is 0 and the world is
    untouched; in the analysis of a folder that lists it, the file has an
    ordinary row with count 0 and the safe status, and is not among the
    long files. *)
Theorem unreadable_file_counts_zero (txt_files : list path)
    (action : dialog_action) (w : world) (p : path) (e : exn) :
  (read_text p w).2 = Raise e →
  count_words_in_file p w = (w, Ok 0%Z) ∧
  (p ∈ txt_files →
   ∃ w' a,
     analyze_folder true txt_files action w = (w', Ok (Some a)) ∧
     (name p, 0%Z, safe_status) ∈ rows a ∧
     p ∉ (long a).*2).
Proof.
  intros Hread.
  assert (count_of w p = 0%Z) as Hcount.
  { unfold read_text in Hread. unfold count_of.
    by destruct (files w !! p) as [[content|]|]. }
  split; [by rewrite count_words_in_file_run, Hcount|].
  intros Hin.
  destruct (analyze_folder_run txt_files action w) as (w' & b & Hrun).
  { intros ->. by apply elem_of_nil in Hin. }
  eexists w', _. split; [exact Hrun|]. simpl. split.
  - assert (csv_row (datum_of w p) = (name p, 0%Z, safe_status)) as <-.
    { unfold csv_row, datum_of. simpl. by rewrite Hcount. }
    apply list_elem_of_fmap_2. rewrite sort_desc_perm.
    by apply list_elem_of_fmap_2.
  - intros (item & -> & Hitem)%list_elem_of_fmap.
    apply elem_of_long_files_of in Hitem as (q & _ & -> & Hq).
    simpl in Hcount. lia.
Qed.

Lemma unreadable_file_counts_zero_witness :
  count_words_in_file Sample.ch2 Sample.plain_world
  = (Sample.plain_world, Ok 0%Z) ∧
  (Sample.ch2 ∈ [Sample.ch1; Sample.ch2] →
   ∃ w' a,
     analyze_folder true [Sample.ch1; Sample.ch2] Cancel Sample.plain_world
     = (w', Ok (Some a)) ∧
     (name Sample.ch2, 0%Z, safe_status) ∈ rows a ∧
     Sample.ch2 ∉ (long a).*2).
Proof.
  apply (unreadable_file_counts_zero _ _ _ _ FileNotFoundError).
  vm_compute. reflexivity.
Defined.

(** ** The batch of selected files (lines 232-244) *)

(** C8: when the split of one selected file raises, the error is caught
    in that file's own split, which returns the empty list; the file is
    counted as one failure, the files after it are processed as usual, and
    the batch ends having counted every selected file once. *)
Theorem batch_continues_after_failure (pre post : list (path * long_file))
    (fp q : path) (filename : str) (word_count : Z) (t t1 : tally)
    (w w1 w2 : world) (e : exn) :
  split_batch pre t w = (w1, Ok t1) →
  split_text_file_body fp word_count w1 = (w2, Raise e) →
  split_text_file fp word_count w1 = (w2, Ok []) ∧
  split_batch (pre ++ (fp, (filename, word_count, q)) :: post) t w
  = split_batch post (Tally (success_count t1) (error_count t1 + 1)) w2 ∧
  ∃ w' t',
    split_batch (pre ++ (fp, (filename, word_count, q)) :: post) t w
    = (w', Ok t') ∧
    success_count t' + error_count t'
    = success_count t + error_count t + length pre + 1 + length post.
Proof.
  intros Hpre Hbody.
  assert (split_text_file fp word_count w1 = (w2, Ok [])) as Hsplit.
  { unfold split_text_file, try_except. by rewrite Hbody. }
  split; [done|]. split.
  - rewrite split_batch_app. unfold bind. rewrite Hpre.
    cbn [split_batch]. unfold bind. by rewrite split_one_run, Hsplit.
  - destruct (split_batch_total
                (pre ++ (fp, (filename, word_count, q)) :: post) t w)
      as (w' & t' & Hrun & Hcount).
    exists w', t'. split; [done|].
    rewrite Hcount, length_app. simpl. lia.
Qed.

Lemma batch_continues_after_failure_witness :
  split_text_file Sample.ch2 5000 Sample.plain_world
  = (Sample.plain_world, Ok []) ∧
  split_batch
    ([] ++ (Sample.ch2, (name Sample.ch2, 5000%Z, Sample.ch2))
        :: [(Sample.ch1, (name Sample.ch1, 9000%Z, Sample.ch1))])
    (Tally 0 0) Sample.plain_world
  = split_batch [(Sample.ch1, (name Sample.ch1, 9000%Z, Sample.ch1))]
      (Tally 0 (0 + 1)) Sample.plain_world ∧
  ∃ w' t',
    split_batch
      ([] ++ (Sample.ch2, (name Sample.ch2, 5000%Z, Sample.ch2))
          :: [(Sample.ch1, (name Sample.ch1, 9000%Z, Sample.ch1))])
      (Tally 0 0) Sample.plain_world
    = (w', Ok t') ∧
    success_count t' + error_count t' = 0 + 0 + 0 + 1 + 1.
Proof.
  apply (batch_continues_after_failure []
           [(Sample.ch1, (name Sample.ch1, 9000%Z, Sample.ch1))]
           Sample.ch2 Sample.ch2 (name Sample.ch2) 5000
           (Tally 0 0) (Tally 0 0) Sample.plain_world Sample.plain_world
           Sample.plain_world FileNotFoundError).
  - reflexivity.
  - vm_compute. reflexivity.
Defined.

(** ** The chapter splitter (novel_splitter.py) *)

Section Chapters.

Variable isdecimal : N → bool.

Lemma from_first_header_none (pre rest : list str) :
  Forall (λ l, is_header isdecimal l = false) pre →
  from_first_header isdecimal (pre ++ rest)
  = from_first_header isdecimal rest.
Proof.
  induction 1 as [|l pre Hl _ IH]; simpl; [done|]. by rewrite Hl.
Qed.

Lemma from_first_header_app (seen more : list str) :
  from_first_header isdecimal seen ≠ [] →
  from_first_header isdecimal (seen ++ more)
  = from_first_header isdecimal seen ++ more.
Proof.
  induction seen as [|l seen IH]; simpl; [done|].
  destruct (is_header isdecimal l); [done|apply IH].
Qed.

Lemma from_first_header_nil_app (seen more : list str) :
  from_first_header isdecimal seen = [] →
  from_first_header isdecimal (seen ++ more)
  = from_first_header isdecimal more.
Proof.
  induction seen as [|l seen IH]; simpl; [done|].
  destruct (is_header isdecimal l); [done|apply IH].
Qed.

Lemma chapter_step_inv (st : Novel.loop_state) (seen : list str)
    (groups : list (list str)) (raw_line : str) :
  chapters_inv isdecimal st seen groups →
  ∃ groups',
    chapters_inv isdecimal (Novel.chapter_step isdecimal st raw_line)
      (seen ++ [strip raw_line]) groups'.
Proof.
  intros [Hdone Hcur]. unfold Novel.chapter_step.
  assert (is_header isdecimal (strip raw_line)
          = match Novel.chapter_match isdecimal (strip raw_line) with
            | Some _ => true | None => false end) as Hhead by done.
  destruct (Novel.chapter_match isdecimal (strip raw_line))
    as [[chapter_num group2]|] eqn:Hmatch.
  - unfold Novel.close_chapter.
    destruct (Novel.current_chapter st) as [[num ttl]|] eqn:Hst.
    + destruct Hcur as [Hne Hcur].
      exists (groups ++ [Novel.current_content st]).
      split; simpl.
      * by rewrite !fmap_app, Hdone.
      * split; [done|].
        rewrite from_first_header_app, <- Hcur, concat_app; simpl.
        -- by rewrite app_nil_r.
        -- rewrite <- Hcur. by destruct (concat groups), (Novel.current_content st).
    + destruct Hcur as [-> Hcur]. exists []. split; [done|]. simpl.
      split; [done|].
      rewrite from_first_header_nil_app by done. simpl. by rewrite Hhead.
  - destruct (Novel.current_chapter st) as [[num ttl]|] eqn:Hst.
    + destruct Hcur as [Hne Hcur]. exists groups.
      split; [done|]. simpl. split.
      * by destruct (Novel.current_content st).
      * rewrite from_first_header_app, <- Hcur, app_assoc; [done|].
        rewrite <- Hcur. by destruct (concat groups), (Novel.current_content st).
    + destruct Hcur as [-> Hcur]. exists []. split; [done|].
      rewrite Hst. split; [done|].
      rewrite from_first_header_nil_app by done. simpl. by rewrite Hhead.
Qed.

Lemma chapter_loop_inv (lines : list str) (st : Novel.loop_state)
    (seen : list str) (groups : list (list str)) :
  chapters_inv isdecimal st seen groups →
  ∃ groups',
    chapters_inv isdecimal (foldl (Novel.chapter_step isdecimal) st lines)
      (seen ++ (strip <$> lines)) groups'.
Proof.
  revert st seen groups.
  induction lines as [|l lines IH]; intros st seen groups Hinv; simpl.
  - exists groups. by rewrite app_nil_r.
  - destruct (chapter_step_inv st seen groups l Hinv) as [groups1 Hstep].
    destruct (IH _ _ _ Hstep) as [groups' Hloop].
    exists groups'. by rewrite <- app_assoc in Hloop.
Qed.

(** The chapter contents are the lines from the first header on, cut
    into non-empty groups. *)
Lemma collect_chapters_lines (lines : list str) :
  ∃ groups : list (list str),
    Novel.content <$> Novel.collect_chapters isdecimal lines
    = join_nl <$> groups ∧
    concat groups = from_first_header isdecimal (strip <$> lines).
Proof.
  destruct (chapter_loop_inv lines (Novel.Loop [] None []) [] [])
    as [groups [Hdone Hcur]]; [by split|].
  unfold Novel.collect_chapters, Novel.close_chapter.
  simpl in Hcur. destruct (Novel.current_chapter _) as [[num ttl]|].
  - destruct Hcur as [_ Hcur].
    exists (groups ++ [Novel.current_content
                         (foldl (Novel.chapter_step isdecimal)
                            (Novel.Loop [] None []) lines)]).
    rewrite !fmap_app, Hdone, concat_app. simpl.
    by rewrite app_nil_r.
  - destruct Hcur as [-> Hcur]. exists []. by rewrite Hdone.
Qed.

Lemma preamble_skipped (pre rest : list str) :
  Forall (λ l, Novel.chapter_match isdecimal (strip l) = None) pre →
  Novel.collect_chapters isdecimal (pre ++ rest)
  = Novel.collect_chapters isdecimal rest.
Proof.
  intros Hpre. unfold Novel.collect_chapters. rewrite foldl_app. f_equal.
  f_equal. induction Hpre as [|l pre Hl _ IH]; simpl; [done|].
  unfold Novel.chapter_step at 2. by rewrite Hl.
Qed.

Lemma write_chapters_log (output_folder : str) (chs : list Novel.chapter)
    (w : world) :
  ∃ k, log (Novel.write_chapters output_folder chs w).1
       = log w ++ take k (chapter_event output_folder <$> chs).
Proof.
  revert w. induction chs as [|ch chs IH]; intros w; simpl.
  - exists 0. by rewrite app_nil_r.
  - unfold bind, write_text. case_decide.
    + exists 0. by rewrite app_nil_r.
    + match goal with |- context [Novel.write_chapters _ _ ?w1] =>
        destruct (IH w1) as [k Hk] end.
      exists (S k). rewrite Hk. simpl. by rewrite <- app_assoc.
Qed.

End Chapters.

Example chapters_of_sample :
  Novel.collect_chapters Sample.ascii_digit
    (Sample.title_page ++ Sample.first_chapter)
  = [Novel.Chapter [49%N] [65%N]
       [31532; 49; 31456; 32; 65; 10; 104; 105]%N].
Proof. reflexivity. Qed.

(** C9: when no line of [pre], stripped, matches the chapter pattern, the
    chapters of [pre ++ rest] are the chapters of [rest]; their contents
    are the stripped lines of [rest] from its first header on, cut into
    groups; and the files written for a text whose lines are
    [pre ++ rest] are files of chapters of [rest] only. *)
Theorem preamble_never_written (isdecimal : N → bool)
    (pre rest : list str) :
  Forall (λ l, Novel.chapter_match isdecimal (strip l) = None) pre →
  Novel.collect_chapters isdecimal (pre ++ rest)
  = Novel.collect_chapters isdecimal rest ∧
  (∃ groups : list (list str),
     Novel.content <$> Novel.collect_chapters isdecimal (pre ++ rest)
     = join_nl <$> groups ∧
     concat groups = from_first_header isdecimal (strip <$> rest)) ∧
  (∀ (file_path text : str) (w : world),
     files w !! of_str file_path = Some (Text text) →
     split_nl text = pre ++ rest →
     ∃ k,
       log (Novel.split_novel_by_chapters isdecimal file_path w).1
       = log w
         ++ take k (chapter_event (splitext_root (name (of_str file_path)))
                      <$> Novel.collect_chapters isdecimal rest)).
Proof.
  intros Hpre.
  pose proof (preamble_skipped isdecimal pre rest Hpre) as Hskip.
  split; [done|]. split.
  - rewrite Hskip. apply collect_chapters_lines.
  - intros file_path text w Hfile Hlines.
    unfold Novel.split_novel_by_chapters, try_except, bind, read_text.
    rewrite Hfile, Hlines, Hskip.
    destruct (write_chapters_log
                (splitext_root (name (of_str file_path)))
                (Novel.collect_chapters isdecimal rest) w) as [k Hk].
    exists k.
    by destruct (Novel.write_chapters _ _ w) as [w' [[]|e]].
Qed.

Lemma preamble_never_written_witness :
  Novel.collect_chapters Sample.ascii_digit
    (Sample.title_page ++ Sample.first_chapter)
  = Novel.collect_chapters Sample.ascii_digit Sample.first_chapter ∧
  (∃ groups : list (list str),
     Novel.content <$> Novel.collect_chapters Sample.ascii_digit
                         (Sample.title_page ++ Sample.first_chapter)
     = join_nl <$> groups ∧
     concat groups
     = from_first_header Sample.ascii_digit (strip <$> Sample.first_chapter)).
Proof.
  destruct (preamble_never_written Sample.ascii_digit Sample.title_page
              Sample.first_chapter) as (H1 & H2 & _).
  - apply Forall_singleton. reflexivity.
  - split; [exact H1|exact H2].
Defined.

(** ** Two concrete runs of the splitter *)

(** The third of three parts cannot be written: two parts are on disk,
    the original is still there and the empty list is returned. *)
Example third_part_denied_run :
  let run := split_text_file Sample.ch1 9000 Sample.third_part_denied in
  run.2 = Ok [] ∧ length (log run.1) = 2 ∧
  files run.1 !! Sample.ch1 = Some (Text Sample.three_lines).
Proof. by vm_compute. Qed.

(** One line of 12001 characters is planned as four parts but has three
    split positions: the fourth part raises [IndexError] after three files
    were written, and the split is reported as failed. *)
Example one_long_line_run :
  let run := split_text_file Sample.ch1 12001 Sample.one_long_line in
  run.2 = Ok [] ∧ length (log run.1) = 3 ∧
  is_Some (files run.1 !! Sample.ch1) ∧
  (split_text_file_body Sample.ch1 12001 Sample.one_long_line).2
  = Raise IndexError.
Proof. vm_compute. repeat split; try done. by eexists. Qed.

(** * Further properties of the analyzer *)

(** ** Counting (lines 30 and 66) *)

Lemma split_nl_nonempty (s : str) : split_nl s ≠ [].
Proof.
  destruct s as [|c s]; simpl; [done|].
  destruct (c =? NL)%N; [done|]. by destruct (split_nl s).
Qed.

Lemma visible_count_cons (c : N) (s : str) :
  visible_count (c :: s)
  = ((if visible c then 1 else 0) + visible_count s)%Z.
Proof. unfold visible_count. simpl. destruct (visible c); simpl; lia. Qed.

Lemma visible_count_split_nl (s : str) :
  visible_count s = total_count (split_nl s).
Proof.
  induction s as [|c s IH]; [done|].
  rewrite visible_count_cons, IH. simpl.
  destruct (N.eqb_spec c NL) as [->|Hc]; [done|].
  destruct (split_nl s) as [|l ls]; unfold total_count; cbn [foldr];
    rewrite visible_count_cons; change (visible_count []) with 0%Z; lia.
Qed.

(** X1: the count the analysis gives a readable file is the sum of the line
    counts the splitter's scan adds up for the same text: a newline is
    never counted. *)
Theorem file_count_is_sum_of_line_counts (w : world) (p : path)
    (content : str) :
  files w !! p = Some (Text content) →
  count_words_in_file p w = (w, Ok (total_count (split_nl content))) ∧
  ∀ parts i st,
    current_word_count (scan parts i (split_nl content) st)
    = (current_word_count st + visible_count content)%Z.
Proof.
  intros Hp. split.
  - rewrite count_words_in_file_run. unfold count_of. rewrite Hp.
    by rewrite visible_count_split_nl.
  - intros parts i st. by rewrite scan_current, visible_count_split_nl.
Qed.

Lemma file_count_is_sum_of_line_counts_witness :
  count_words_in_file Sample.ch1 Sample.plain_world
  = (Sample.plain_world, Ok (total_count (split_nl Sample.three_lines))).
Proof.
  apply (file_count_is_sum_of_line_counts Sample.plain_world Sample.ch1).
  reflexivity.
Defined.

(** ** The part plan (lines 50-59) *)

Lemma part_count_floor (word_count : Z) :
  (1 ≤ word_count →
   (part_count word_count - 1) * 4000 ≤ word_count
   ∧ word_count ≤ 4000 * part_count word_count)%Z.
Proof.
  intros Hwc. unfold part_count.
  pose proof (Z.div_mod (word_count - 1) 4000 ltac:(lia)).
  pose proof (Z.mod_pos_bound (word_count - 1) 4000 ltac:(lia)).
  repeat case_match; lia.
Qed.

(** X2: for a count of at least 1 the planned parts, at 4000 characters
    each, can hold the text; except at exactly 8000, where a third part is
    planned, no smaller number of parts could; and a larger count never
    gets fewer parts. *)
Theorem part_count_is_ceiling (word_count : Z) :
  (1 ≤ word_count →
   word_count ≤ 4000 * part_count word_count
   ∧ (word_count ≠ 8000 → 4000 * (part_count word_count - 1) < word_count)
   ∧ (word_count = 8000 → part_count word_count = 3)
   ∧ ∀ larger, word_count ≤ larger →
       part_count word_count ≤ part_count larger)%Z.
Proof.
  intros Hwc. split; [by apply part_count_floor|].
  unfold part_count.
  pose proof (Z.div_mod (word_count - 1) 4000 ltac:(lia)).
  pose proof (Z.mod_pos_bound (word_count - 1) 4000 ltac:(lia)).
  split; [repeat case_match; lia|].
  split; [intros ->; reflexivity|].
  intros larger Hle.
  pose proof (Z.div_mod (larger - 1) 4000 ltac:(lia)).
  pose proof (Z.mod_pos_bound (larger - 1) 4000 ltac:(lia)).
  repeat case_match; lia.
Qed.

Lemma part_count_is_ceiling_witness :
  (12001 ≤ 4000 * part_count 12001
   ∧ (12001 ≠ 8000 → 4000 * (part_count 12001 - 1) < 12001)
   ∧ (12001 = 8000 → part_count 12001 = 3)
   ∧ ∀ larger, 12001 ≤ larger → part_count 12001 ≤ part_count larger)%Z.
Proof. apply (part_count_is_ceiling 12001). lia. Defined.

(** ** The files of the parts (lines 53-59 and 89-90) *)

Lemma digits_value (fuel : nat) (n : N) (acc : str) :
  (n < 2 ^ N.of_nat (S fuel))%N →
  foldl (λ a d, (10 * a + (d - 48))%N) 0%N (digits fuel n acc)
  = foldl (λ a d, (10 * a + (d - 48))%N) n acc.
Proof.
  revert n acc. induction fuel as [|fuel IH]; intros n acc Hn.
  - cbn [digits foldl]. f_equal. change (2 ^ N.of_nat 1)%N with 2%N in Hn.
    rewrite N.mod_small by lia. lia.
  - cbn [digits]. destruct (N.eqb_spec (n / 10) 0) as [Hsmall|Hbig].
    + apply N.div_small_iff in Hsmall; [|done]. cbn [foldl]. f_equal.
      rewrite N.mod_small by lia. lia.
    + rewrite IH.
      * cbn [foldl]. f_equal. pose proof (N.div_mod n 10 ltac:(done)).
        generalize dependent (n / 10)%N. generalize (n mod 10)%N. lia.
      * apply N.Div0.div_lt_upper_bound.
        rewrite (Nat2N.inj_succ (S fuel)), N.pow_succ_r' in Hn. lia.
Qed.

(** Reading back the decimal digits of a non-negative integer gives the
    integer. *)
Lemma decimal_value_str_of_int (z : Z) :
  (0 ≤ z)%Z → decimal_value (str_of_int z) = Z.to_N z.
Proof.
  intros Hz. unfold decimal_value, str_of_int.
  assert ((z <? 0)%Z = false) as -> by lia.
  rewrite Z.abs_eq by done. rewrite digits_value; [done|].
  rewrite Nat2N.inj_succ, N2Nat.id.
  destruct (N.eq_dec (Z.to_N z) 0%N) as [->|Hpos]; [done|].
  apply N.log2_spec. lia.
Qed.

Lemma range_spec (a b z : Z) : z ∈ range a b ↔ (a ≤ z < b)%Z.
Proof.
  unfold range. rewrite list_elem_of_fmap. split.
  - intros (k & -> & Hk%elem_of_seq). lia.
  - intros Hz. exists (Z.to_nat (z - a)). split; [lia|].
    apply elem_of_seq. lia.
Qed.

Lemma range_NoDup (a b : Z) : NoDup (range a b).
Proof.
  unfold range. apply NoDup_fmap_2; [|apply NoDup_seq].
  intros j k Hjk. lia.
Qed.

Lemma part_suffixes_NoDup (word_count : Z) :
  NoDup (part_suffixes word_count).
Proof.
  unfold part_suffixes.
  destruct ((4000 <? word_count) && (word_count <? 8000))%Z;
    [|destruct ((8000 <=? word_count) && (word_count <? 12000))%Z].
  - apply NoDup_cons. split; [|apply NoDup_singleton].
    by intros ?%list_elem_of_singleton.
  - repeat (apply NoDup_cons; split); try apply NoDup_nil_2;
      rewrite ?elem_of_cons, ?elem_of_nil; intros H; by intuition.
  - apply NoDup_fmap_2_strong; [|apply range_NoDup].
    intros i j Hi%range_spec Hj%range_spec Heq.
    apply app_inv_head, app_inv_tail in Heq.
    apply (f_equal decimal_value) in Heq.
    rewrite !decimal_value_str_of_int in Heq by lia. lia.
Qed.

Lemma part_targets_facts (fp : path) (word_count : Z) :
  length (part_targets fp word_count) = Z.to_nat (part_count word_count) ∧
  NoDup (part_targets fp word_count) ∧
  fp ∉ part_targets fp word_count.
Proof.
  split; [|split].
  - unfold part_targets. rewrite length_fmap.
    pose proof (part_suffixes_length word_count). lia.
  - unfold part_targets. apply NoDup_fmap_2; [|apply part_suffixes_NoDup].
    intros s1 s2 Heq. unfold part_target, child in Heq.
    injection Heq as Heq. by apply app_inv_head, app_inv_tail in Heq.
  - apply part_targets_fresh.
Qed.

(** X3: the files of the parts are as many as the planned parts, all
    different, and none of them is the file that is split. *)
Theorem part_files_distinct (fp : path) (word_count : Z) :
  length (part_targets fp word_count) = Z.to_nat (part_count word_count) ∧
  NoDup (part_targets fp word_count) ∧
  fp ∉ part_targets fp word_count.
Proof. apply part_targets_facts. Qed.

(** ** What the scan records (lines 62-76) *)

Lemma total_count_app (l1 l2 : list str) :
  total_count (l1 ++ l2) = (total_count l1 + total_count l2)%Z.
Proof. induction l1 as [|l l1 IH]; simpl; [done|]. rewrite IH. lia. Qed.

(** After a prefix of the document: the running total is the count of the
    prefix, the recorded positions lie within it and go strictly up, and
    the [k]-th recorded position was reached with at least [k * 4000]
    characters. *)
Lemma scan_prefix_facts (parts : Z) (pre : list str) :
  let st := scan parts 0 pre (Scan 0 [0]) in
  current_word_count st = total_count pre ∧
  split_positions st !! 0 = Some 0 ∧
  (∀ k b, split_positions st !! k = Some b → b ≤ length pre) ∧
  (∀ j k a b, j < k → split_positions st !! j = Some a →
              split_positions st !! k = Some b → a < b) ∧
  (∀ k b, 1 ≤ k → split_positions st !! k = Some b →
          (Z.of_nat k * 4000 ≤ total_count (take b pre))%Z).
Proof.
  induction pre as [|line pre IH] using rev_ind.
  - simpl. split; [done|]. split; [done|]. split; [|split].
    + intros [|k] b Hk; simplify_eq/=; lia.
    + intros [|j] [|k] a b Hjk Ha Hb; simplify_eq/=; lia.
    + intros [|k] b Hk Hb; simplify_eq/=; lia.
  - rewrite scan_snoc. cbv zeta in IH.
    set (st := scan parts 0 pre (Scan 0 [0])) in *.
    destruct IH as (Hcur & H0 & Hin & Hup & Hreach).
    rewrite length_app, total_count_app. simpl.
    assert (∀ k b, split_positions st !! k = Some b →
                   take b (pre ++ [line]) = take b pre) as Htake.
    { intros k b Hk. apply take_app_le. eauto. }
    unfold scan_step. case_match eqn:Hc; simpl.
    + apply andb_true_iff in Hc as [Hc%Z.leb_le _].
      split; [lia|]. split.
      { rewrite lookup_app_l; [done|]. by apply lookup_lt_Some in H0. }
      assert (∀ k b, (split_positions st ++ [length pre + 1]) !! k = Some b →
                     split_positions st !! k = Some b
                     ∨ (k = length (split_positions st)
                        ∧ b = length pre + 1)) as Hcases.
      { intros k b Hk. apply lookup_app_Some in Hk as [Hk|[Hlen Hk]];
          [by left|right].
        apply list_lookup_singleton_Some in Hk as [Hk <-]. lia. }
      split; [|split].
      * intros k b [Hk|[_ ->]]%Hcases; [|lia]. apply Hin in Hk. lia.
      * intros j k a b Hjk [Ha|[-> ->]]%Hcases [Hb|[-> ->]]%Hcases.
        -- eauto.
        -- apply Hin in Ha. lia.
        -- apply lookup_lt_Some in Hb. lia.
        -- lia.
      * intros k b Hk [Hb|[-> ->]]%Hcases.
        -- rewrite (Htake _ _ Hb). eauto.
        -- rewrite take_ge by (rewrite length_app; simpl; lia).
           rewrite total_count_app. simpl. lia.
    + split; [lia|]. split; [done|]. split; [|split].
      * intros k b Hk. apply Hin in Hk. lia.
      * done.
      * intros k b Hk Hb. rewrite (Htake _ _ Hb). eauto.
Qed.

Lemma position_from_scan (parts : Z) (lines : list str) (k b : nat) :
  k + 2 ≤ length (compute_split_positions parts lines) →
  compute_split_positions parts lines !! k = Some b →
  split_positions (scan parts 0 lines (Scan 0 [0])) !! k = Some b.
Proof.
  unfold compute_split_positions. case_match; [|done].
  rewrite length_app. simpl. intros Hk Hb.
  by rewrite lookup_app_l in Hb by lia.
Qed.

Lemma slice_nonempty {A} (a b : nat) (l : list A) :
  a < b → b ≤ length l → slice a b l ≠ [].
Proof.
  intros Hab Hb Hnil. apply (f_equal length) in Hnil.
  unfold slice in Hnil. rewrite length_take, length_drop in Hnil.
  simpl in Hnil. lia.
Qed.

(** X4: the split positions go strictly up until the last one, so every part
    that ends before the last position holds at least one line. *)
Theorem parts_before_last_nonempty (parts : Z) (lines : list str) :
  let sp := compute_split_positions parts lines in
  (∀ j k a b, j < k → k + 2 ≤ length sp →
              sp !! j = Some a → sp !! k = Some b → a < b) ∧
  (∀ i part, i + 3 ≤ length sp → slice_of lines sp i = Some part →
             part ≠ []).
Proof.
  intros sp.
  destruct (scan_prefix_facts parts lines) as (_ & _ & Hin & Hup & _).
  assert (∀ j k a b, j < k → k + 2 ≤ length sp →
                     sp !! j = Some a → sp !! k = Some b → a < b) as Hstrict.
  { intros j k a b Hjk Hk Ha Hb.
    apply position_from_scan in Ha, Hb; [|fold sp; lia..]. eauto. }
  split; [done|]. intros i part Hi Hpart. unfold slice_of in Hpart.
  destruct (sp !! i) as [a|] eqn:Ha; [|done].
  destruct (lookup_lt_is_Some_2 sp (i + 1)) as [b Hb]; [lia|].
  rewrite Hb in Hpart. simpl in Hpart. injection Hpart as <-.
  apply slice_nonempty.
  - apply (Hstrict i (i + 1)); [lia|lia|done..].
  - apply position_from_scan in Hb; [|fold sp; lia]. eauto.
Qed.

Lemma scan_length_grows (parts : Z) (lines : list str) (i : nat)
    (st : scan_state) :
  length (split_positions st)
  ≤ length (split_positions (scan parts i lines st)).
Proof.
  revert i st. induction lines as [|l lines IH]; intros i st; simpl; [done|].
  etrans; [|apply IH]. unfold scan_step. case_match; simpl; [|done].
  rewrite length_app. lia.
Qed.

(** With two or more parts planned, the scan records a position as soon
    as the total reaches 4000. *)
Lemma scan_first_recorded (parts : Z) (lines : list str) (i : nat)
    (st : scan_state) :
  (2 ≤ parts)%Z → 1 ≤ length (split_positions st) →
  (current_word_count st < 4000)%Z ∨ 2 ≤ length (split_positions st) →
  (current_word_count (scan parts i lines st) < 4000)%Z
  ∨ 2 ≤ length (split_positions (scan parts i lines st)).
Proof.
  intros Hparts. revert i st.
  induction lines as [|l lines IH]; intros i st Hone Hst; simpl; [done|].
  apply IH.
  - unfold scan_step. case_match; simpl; [rewrite length_app|]; lia.
  - unfold scan_step. case_match eqn:Hc; simpl.
    + right. rewrite length_app. simpl. lia.
    + apply andb_false_iff in Hc as [Hc%Z.leb_gt|Hc%Z.ltb_ge]; lia.
Qed.

Lemma total_count_nonneg (lines : list str) : (0 ≤ total_count lines)%Z.
Proof.
  induction lines as [|l lines IH]; simpl; [done|].
  pose proof (visible_count_nonneg l). lia.
Qed.

Lemma total_count_take (b : nat) (lines : list str) :
  (total_count (take b lines) ≤ total_count lines)%Z.
Proof.
  rewrite <- (take_drop b lines) at 2. rewrite total_count_app.
  pose proof (total_count_nonneg (drop b lines)). lia.
Qed.

(** X5: a position the scan recorded as the [k]-th (any position but the
    last, which is appended after the scan) was reached with at least
    [k * 4000] counted characters.  So in a split in two or more parts of
    a text of at least 4000 counted characters the first part holds at
    least 4000 of them; a text of fewer than 4000 has no recorded
    position, and its first part is the whole text. *)
Theorem recorded_position_reaches_threshold (parts : Z) (lines : list str) :
  let sp := compute_split_positions parts lines in
  (∀ k b, 1 ≤ k → k + 2 ≤ length sp → sp !! k = Some b →
          (Z.of_nat k * 4000 ≤ total_count (take b lines))%Z) ∧
  ((2 ≤ parts)%Z → (4000 ≤ total_count lines)%Z →
   ∃ part, 3 ≤ length sp ∧ slice_of lines sp 0 = Some part ∧
           (4000 ≤ total_count part)%Z) ∧
  ((1 ≤ parts)%Z → (total_count lines < 4000)%Z →
   sp = [0; length lines] ∧ slice_of lines sp 0 = Some lines).
Proof.
  intros sp.
  destruct (scan_prefix_facts parts lines) as (Hcur & H0 & _ & _ & Hreach).
  set (st := scan parts 0 lines (Scan 0 [0])) in *.
  split; [|split].
  - intros k b Hk Hlen Hb. apply position_from_scan in Hb; [|done]. eauto.
  - intros Hparts Htotal.
    destruct (split_positions_wf parts lines ltac:(lia)) as (Hsp & _).
    fold sp st in Hsp.
    assert (2 ≤ length (split_positions st)) as Hrec.
    { destruct (scan_first_recorded parts lines 0 (Scan 0 [0]) Hparts)
        as [Hlow|Hrec]; simpl; [lia|left; lia| |done].
      fold st in Hlow. lia. }
    destruct (lookup_lt_is_Some_2 (split_positions st) 1) as [b Hb]; [lia|].
    exists (take b lines). split; [rewrite Hsp, length_app; simpl; lia|].
    split; [|by apply (Hreach 1 b)].
    unfold slice_of. rewrite Hsp, !lookup_app_l by lia.
    rewrite H0. simpl. rewrite Hb. simpl.
    unfold slice. by rewrite Nat.sub_0_r, drop_0.
  - intros Hparts Htotal.
    destruct (split_positions_wf parts lines Hparts) as (Hsp & _).
    fold sp st in Hsp.
    assert (split_positions st = [0]) as Hnone.
    { destruct (split_positions st) as [|a [|b l]] eqn:Hpos;
        simplify_eq/=; [done|].
      pose proof (Hreach 1 b ltac:(lia) eq_refl).
      pose proof (total_count_take b lines). lia. }
    rewrite Hnone in Hsp. simpl in Hsp. split; [done|].
    unfold slice_of. rewrite Hsp. simpl. f_equal. apply slice_all.
Qed.

Lemma recorded_position_reaches_threshold_witness :
  (Z.of_nat 1 * 4000
   ≤ total_count (take 2 (split_nl Sample.three_lines)))%Z ∧
  (∃ part,
     3 ≤ length (compute_split_positions 3 (split_nl Sample.three_lines)) ∧
     slice_of (split_nl Sample.three_lines)
       (compute_split_positions 3 (split_nl Sample.three_lines)) 0
     = Some part ∧
     (4000 ≤ total_count part)%Z).
Proof.
  destruct (recorded_position_reaches_threshold 3
              (split_nl Sample.three_lines)) as (Hk & Hfirst & _).
  split.
  - apply (Hk 1 2).
    + lia.
    + vm_compute. lia.
    + vm_compute. reflexivity.
  - apply Hfirst.
    + lia.
    + vm_compute. discriminate.
Defined.

(** ** When a split succeeds and what it leaves (lines 36-106) *)

Lemma write_parts_succeeds (fp : path) (lines suffixes : list str)
    (sp : list nat) (todo : list nat) (created : list path) (w : world) :
  (∀ i, i ∈ todo →
        is_Some (slice_of lines sp i) ∧
        ∃ s, suffixes !! i = Some s ∧ part_target fp s ∉ write_denied w) →
  ∃ cr, (write_parts fp lines suffixes sp todo created w).2 = Ok cr.
Proof.
  revert created w. induction todo as [|i todo IH]; intros created w Hall.
  - by eexists.
  - cbn [write_parts]. unfold bind. rewrite write_part_run.
    destruct (Hall i) as ([part ->] & s & -> & Hs); [by left|].
    rewrite decide_False by done.
    apply IH. intros j Hj. apply Hall. by right.
Qed.

Lemma foldl_insert_lookup_ne (m : gmap path file) (ps : list path)
    (cs : list str) (q : path) :
  q ∉ ps →
  foldl (λ m pc, <[pc.1 := Text pc.2]> m) m (zip ps cs) !! q = m !! q.
Proof.
  revert cs m. induction ps as [|p ps IH]; intros cs m Hq; [done|].
  destruct cs as [|c cs]; [done|]. simpl.
  apply not_elem_of_cons in Hq as [Hne Hq].
  rewrite IH by done. by rewrite lookup_insert_ne.
Qed.

Lemma foldl_insert_lookup (m : gmap path file) (ps : list path)
    (cs : list str) (i : nat) (p : path) (c : str) :
  NoDup ps → ps !! i = Some p → cs !! i = Some c →
  foldl (λ m pc, <[pc.1 := Text pc.2]> m) m (zip ps cs) !! p
  = Some (Text c).
Proof.
  revert cs m i. induction ps as [|p0 ps IH]; intros cs m i Hnd Hp Hc;
    [done|].
  destruct cs as [|c0 cs]; [done|]. apply NoDup_cons in Hnd as [Hp0 Hnd].
  simpl. destruct i as [|i]; simplify_eq/=.
  - rewrite foldl_insert_lookup_ne by done. apply lookup_insert_eq.
  - by eapply IH.
Qed.

(** With enough split positions and every part file writable, the split
    writes all the parts; it then removes the original and returns the
    part files, unless the original cannot be removed, in which case it
    returns the empty list. *)
Lemma split_text_file_outcome (fp : path) (word_count : Z) (w : world)
    (content : str) :
  files w !! fp = Some (Text content) →
  Z.to_nat (part_count word_count)
  ≤ length (compute_split_positions (part_count word_count)
              (split_nl content)) →
  Forall (λ p, p ∉ write_denied w) (part_targets fp word_count) →
  ∃ pls : list (list str),
    Forall2 (λ i part,
               slice_of (split_nl content)
                 (compute_split_positions (part_count word_count)
                    (split_nl content)) i = Some part)
            (seq 0 (Z.to_nat (part_count word_count))) pls ∧
    split_text_file fp word_count w
    = let w1 := written w (part_targets fp word_count) (join_nl <$> pls) in
      if decide (fp ∈ unlink_denied w) then (w1, Ok [])
      else (World (delete fp (files w1)) (write_denied w) (unlink_denied w)
                  (log w1 ++ [Unlink fp]),
            Ok (part_targets fp word_count)).
Proof.
  intros Hfp Hsp Hok.
  unfold split_text_file, try_except, split_text_file_body, bind, read_text.
  rewrite Hfp.
  set (lines := split_nl content) in *.
  set (parts := part_count word_count) in *.
  set (sp := compute_split_positions parts lines) in *.
  assert (length (part_suffixes word_count) = Z.to_nat parts) as Hlen.
  { pose proof (part_suffixes_length word_count). unfold parts. lia. }
  destruct (write_parts_succeeds fp lines (part_suffixes word_count) sp
              (seq 0 (Z.to_nat parts)) [] w) as [cr Hcr].
  { intros i Hi%elem_of_seq. split.
    - unfold slice_of.
      destruct (lookup_lt_is_Some_2 sp i) as [a ->]; [lia|]. by eexists.
    - destruct (lookup_lt_is_Some_2 (part_suffixes word_count) i)
        as [s Hs]; [lia|].
      exists s. split; [done|]. rewrite Forall_forall in Hok. apply Hok.
      unfold part_targets. apply list_elem_of_fmap_2.
      by eapply list_elem_of_lookup_2. }
  destruct (write_parts_run fp lines (part_suffixes word_count) sp
              (seq 0 (Z.to_nat parts)) [] w)
    as (ps & pls & r & Hrun & Hps & Hpls & _ & Hr).
  rewrite Hrun in Hcr |- *. simpl in Hcr. subst r.
  destruct Hr as [[Hall [= ->]]|[_ [e He]]]; [|done].
  rewrite length_seq in Hall.
  rewrite take_seq, Nat.min_l in Hps, Hpls by lia.
  apply targets_of_lookups in Hps.
  assert (ps = part_targets fp word_count) as ->.
  { rewrite Hps. unfold part_targets. f_equal. apply take_ge. lia. }
  rewrite Hall in Hpls. exists pls. split; [done|]. cbv zeta.
  unfold unlink.
  rewrite written_lookup_ne, Hfp by apply part_targets_fresh.
  change (unlink_denied (written w (part_targets fp word_count)
                           (join_nl <$> pls))) with (unlink_denied w).
  by case_decide.
Qed.

(** Enough positions for every part: when the count is that of the text
    and either fewer than 12000 or spread over lines of at most 4000. *)
Lemma positions_suffice (content : str) :
  let word_count := visible_count content in
  let lines := split_nl content in
  (4000 < word_count)%Z →
  (word_count < 12000)%Z
  ∨ Forall (λ line, (visible_count line ≤ 4000)%Z) lines →
  Z.to_nat (part_count word_count)
  ≤ length (compute_split_positions (part_count word_count) lines).
Proof.
  intros word_count lines Hwc Hcase.
  destruct (part_count_floor word_count ltac:(lia)) as [Hfloor Hceil].
  assert (1 ≤ part_count word_count)%Z as Hparts by lia.
  destruct (split_positions_wf (part_count word_count) lines Hparts)
    as (Hsp & _). rewrite Hsp, length_app. simpl.
  set (st := scan (part_count word_count) 0 lines (Scan 0 [0])).
  assert (current_word_count st = word_count) as Hcur.
  { unfold st. rewrite scan_current. simpl.
    unfold lines. by rewrite <- visible_count_split_nl. }
  destruct Hcase as [Hsmall|Hlines].
  - assert (part_count word_count = 2 ∨ part_count word_count = 3)%Z
      as Htwo_three.
    { unfold part_count. repeat case_match; lia. }
    destruct (scan_first_recorded (part_count word_count) lines 0
                (Scan 0 [0])) as [Hlow|Hrec]; simpl; [lia|lia|lia| |].
    + fold st in Hlow. lia.
    + fold st in Hrec. lia.
  - assert (on_pace (part_count word_count) st) as [Hpace|Hpace].
    { apply scan_on_pace; [done|]. left. simpl. lia. }
    + lia.
    + lia.
Qed.

(** X6: a file of the analysed folder that is too long is split whenever its
    count is below 12000 or none of its lines exceeds 4000 characters,
    provided the part files can be written and the original removed: the
    split returns the part files and the original is gone. *)
Theorem split_of_analysed_file_succeeds (fp : path) (w : world)
    (content : str) :
  files w !! fp = Some (Text content) →
  (4000 < count_of w fp)%Z →
  (count_of w fp < 12000)%Z
  ∨ Forall (λ line, (visible_count line ≤ 4000)%Z) (split_nl content) →
  Forall (λ p, p ∉ write_denied w) (part_targets fp (count_of w fp)) →
  fp ∉ unlink_denied w →
  (split_text_file fp (count_of w fp) w).2
  = Ok (part_targets fp (count_of w fp)) ∧
  part_targets fp (count_of w fp) ≠ [] ∧
  files (split_text_file fp (count_of w fp) w).1 !! fp = None.
Proof.
  intros Hfp Hlong Hcase Hwrite Hunlink.
  assert (count_of w fp = visible_count content) as Hcount.
  { unfold count_of. by rewrite Hfp. }
  rewrite Hcount in *.
  destruct (split_text_file_outcome fp (visible_count content) w content)
    as (pls & _ & Hrun); [done|by apply positions_suffice|done|].
  rewrite Hrun. cbv zeta. rewrite decide_False by done. simpl.
  split; [done|]. split; [|apply lookup_delete_eq].
  intros Hnil. apply (f_equal length) in Hnil.
  destruct (part_targets_facts fp (visible_count content)) as [Hlen _].
  destruct (part_count_floor (visible_count content) ltac:(lia)).
  rewrite Hlen in Hnil. simpl in Hnil. lia.
Qed.

Lemma split_of_analysed_file_succeeds_witness :
  (split_text_file Sample.ch1 (count_of Sample.plain_world Sample.ch1)
     Sample.plain_world).2
  = Ok (part_targets Sample.ch1 (count_of Sample.plain_world Sample.ch1)) ∧
  part_targets Sample.ch1 (count_of Sample.plain_world Sample.ch1) ≠ [] ∧
  files (split_text_file Sample.ch1 (count_of Sample.plain_world Sample.ch1)
           Sample.plain_world).1 !! Sample.ch1 = None.
Proof.
  apply (split_of_analysed_file_succeeds Sample.ch1 Sample.plain_world
           Sample.three_lines).
  - reflexivity.
  - vm_compute. reflexivity.
  - left. vm_compute. reflexivity.
  - apply Forall_forall. intros p _. apply not_elem_of_empty.
  - apply not_elem_of_empty.
Defined.

(** X7: after a successful split every part file holds the joined lines of
    its part, the original is gone, and no other file has changed. *)
Theorem split_leaves_parts_on_disk (fp : path) (word_count : Z) (w : world)
    (created : list path) :
  (split_text_file fp word_count w).2 = Ok created →
  created ≠ [] →
  ∃ (content : str) (pls : list (list str)),
    files w !! fp = Some (Text content) ∧
    concat pls = split_nl content ∧
    length pls = length created ∧
    files (split_text_file fp word_count w).1 !! fp = None ∧
    (∀ i p part,
       created !! i = Some p → pls !! i = Some part →
       files (split_text_file fp word_count w).1 !! p
       = Some (Text (join_nl part))) ∧
    (∀ q, q ≠ fp → q ∉ created →
          files (split_text_file fp word_count w).1 !! q = files w !! q).
Proof.
  intros Hr Hne.
  destruct (split_text_file_run fp word_count w)
    as [(content & pls & Hfp & Hpls & _ & Hrun)
       |(ps & cs & _ & _ & _ & Hrun)];
    rewrite Hrun in Hr |- *; simpl in *; [|congruence].
  injection Hr as <-.
  destruct (part_targets_facts fp word_count) as (Hlen & Hnd & Hfresh).
  assert (length pls = length (part_targets fp word_count)) as Hpl.
  { apply Forall2_length in Hpls. rewrite length_seq in Hpls. lia. }
  exists content, pls. split; [done|]. split.
  { apply (parts_cover_document (part_count word_count)); [|done].
    destruct (part_targets fp word_count); [done|]. simpl in Hlen. lia. }
  split; [done|]. split; [apply lookup_delete_eq|]. split.
  - intros i p part Hp Hpart.
    rewrite lookup_delete_ne.
    + eapply foldl_insert_lookup; [done..|].
      by rewrite list_lookup_fmap, Hpart.
    + intros ->. apply Hfresh. by eapply list_elem_of_lookup_2.
  - intros q Hq Hout. rewrite lookup_delete_ne by done.
    by apply foldl_insert_lookup_ne.
Qed.

Lemma split_leaves_parts_on_disk_witness :
  ∃ (content : str) (pls : list (list str)),
    files Sample.plain_world !! Sample.ch1 = Some (Text content) ∧
    concat pls = split_nl content ∧
    length pls = length (part_targets Sample.ch1 9000) ∧
    files (split_text_file Sample.ch1 9000 Sample.plain_world).1
      !! Sample.ch1 = None ∧
    (∀ i p part,
       part_targets Sample.ch1 9000 !! i = Some p → pls !! i = Some part →
       files (split_text_file Sample.ch1 9000 Sample.plain_world).1 !! p
       = Some (Text (join_nl part))) ∧
    (∀ q, q ≠ Sample.ch1 → q ∉ part_targets Sample.ch1 9000 →
          files (split_text_file Sample.ch1 9000 Sample.plain_world).1 !! q
          = files Sample.plain_world !! q).
Proof.
  apply (split_leaves_parts_on_disk Sample.ch1 9000 Sample.plain_world).
  - vm_compute. reflexivity.
  - vm_compute. discriminate.
Defined.

(** X8: a file that is missing or does not decode is not split: the empty
    list is returned and nothing changes. *)
Theorem split_of_unreadable_file (fp : path) (word_count : Z) (w : world) :
  files w !! fp = None ∨ files w !! fp = Some Undecodable →
  split_text_file fp word_count w = (w, Ok []).
Proof.
  unfold split_text_file, try_except, split_text_file_body, bind, read_text.
  by intros [-> | ->].
Qed.

Lemma split_of_unreadable_file_witness :
  split_text_file Sample.ch2 5000 Sample.plain_world
  = (Sample.plain_world, Ok []).
Proof.
  apply (split_of_unreadable_file Sample.ch2 5000 Sample.plain_world).
  left. vm_compute. reflexivity.
Defined.

(** X9: called with a count of 0 or less, the splitter plans no part: it
    writes nothing, removes the original all the same and returns the
    empty list. *)
Theorem split_with_no_parts_removes_original (fp : path) (word_count : Z)
    (w : world) (content : str) :
  files w !! fp = Some (Text content) →
  (word_count ≤ 0)%Z →
  fp ∉ unlink_denied w →
  split_text_file fp word_count w
  = (World (delete fp (files w)) (write_denied w) (unlink_denied w)
           (log w ++ [Unlink fp]), Ok []).
Proof.
  intros Hfp Hwc Hunlink.
  unfold split_text_file, try_except, split_text_file_body, bind, read_text.
  rewrite Hfp.
  assert (Z.to_nat (part_count word_count) = 0) as ->.
  { unfold part_count.
    pose proof (Z.div_mod (word_count - 1) 4000 ltac:(lia)).
    pose proof (Z.mod_pos_bound (word_count - 1) 4000 ltac:(lia)).
    repeat case_match; lia. }
  simpl. unfold unlink. rewrite Hfp. by rewrite decide_False.
Qed.

Lemma split_with_no_parts_removes_original_witness :
  split_text_file Sample.ch1 0 Sample.plain_world
  = (World (delete Sample.ch1 (files Sample.plain_world))
           (write_denied Sample.plain_world)
           (unlink_denied Sample.plain_world)
           (log Sample.plain_world ++ [Unlink Sample.ch1]), Ok []).
Proof.
  apply (split_with_no_parts_removes_original Sample.ch1 0
           Sample.plain_world Sample.three_lines).
  - reflexivity.
  - lia.
  - apply not_elem_of_empty.
Defined.

(** X10: when the original cannot be removed the split returns the empty list
    and the original is unchanged, even if every part was written: with
    enough split positions and writable part files, all the parts are on
    disk beside it. *)
Theorem unremovable_original_reported_failed (fp : path) (word_count : Z)
    (w : world) :
  fp ∈ unlink_denied w →
  (split_text_file fp word_count w).2 = Ok [] ∧
  files (split_text_file fp word_count w).1 !! fp = files w !! fp ∧
  (∀ content,
     files w !! fp = Some (Text content) →
     Z.to_nat (part_count word_count)
     ≤ length (compute_split_positions (part_count word_count)
                 (split_nl content)) →
     Forall (λ p, p ∉ write_denied w) (part_targets fp word_count) →
     ∃ contents : list str,
       length contents = length (part_targets fp word_count) ∧
       log (split_text_file fp word_count w).1
       = log w ++ zip_with Write (part_targets fp word_count) contents).
Proof.
  intros Hdenied.
  assert (∀ content,
            files w !! fp = Some (Text content) →
            Z.to_nat (part_count word_count)
            ≤ length (compute_split_positions (part_count word_count)
                        (split_nl content)) →
            Forall (λ p, p ∉ write_denied w) (part_targets fp word_count) →
            ∃ contents : list str,
              length contents = length (part_targets fp word_count) ∧
              split_text_file fp word_count w
              = (written w (part_targets fp word_count) contents, Ok []))
    as Hall.
  { intros content Hfp Hsp Hok.
    destruct (split_text_file_outcome fp word_count w content Hfp Hsp Hok)
      as (pls & Hpls & Hrun).
    cbv zeta in Hrun. rewrite decide_True in Hrun by done.
    exists (join_nl <$> pls). split; [|done].
    apply Forall2_length in Hpls. rewrite length_seq in Hpls.
    destruct (part_targets_facts fp word_count) as [Hlen _].
    rewrite length_fmap. lia. }
  assert ((split_text_file fp word_count w).2 = Ok [] ∧
          files (split_text_file fp word_count w).1 !! fp = files w !! fp)
    as [Hr Hkept].
  { destruct (split_text_file_run fp word_count w)
      as [(content & pls & Hfp & Hpls & Hok & Hrun)
         |(ps & cs & Hprefix & _ & _ & Hrun)].
    - destruct (Hall content Hfp) as (cs & _ & Hrun'); [|done|].
      { destruct (Z.to_nat (part_count word_count)) as [|n] eqn:Hn; [lia|].
        destruct (Forall2_lookup_l _ _ _ n n Hpls) as (part & _ & Hslice).
        { apply (lookup_seq_lt 0 (S n) n). lia. }
        unfold slice_of in Hslice.
        destruct (compute_split_positions _ _ !! n) eqn:Hlook; [|done].
        apply lookup_lt_Some in Hlook. lia. }
      apply (f_equal (λ x, (length (log x.1), x.2))) in Hrun.
      rewrite Hrun' in Hrun. simpl in Hrun. injection Hrun as Hw Ht.
      rewrite <- Ht in Hw. simpl in Hw. rewrite !length_app in Hw.
      simpl in Hw. lia.
    - rewrite Hrun. simpl. split; [done|].
      apply written_lookup_ne. intros Hin.
      apply (part_targets_fresh fp word_count).
      destruct Hprefix as [k ->]. apply elem_of_app. by left. }
  split; [done|]. split; [done|].
  intros content Hfp Hsp Hok.
  destruct (Hall content Hfp Hsp Hok) as (cs & Hlen & Hrun).
  exists cs. split; [done|]. by rewrite Hrun.
Qed.

Lemma unremovable_original_reported_failed_witness :
  (split_text_file Sample.ch1 9000 Sample2.original_locked).2 = Ok [] ∧
  files (split_text_file Sample.ch1 9000 Sample2.original_locked).1
    !! Sample.ch1
  = files Sample2.original_locked !! Sample.ch1.
Proof.
  destruct (unremovable_original_reported_failed Sample.ch1 9000
              Sample2.original_locked) as (H1 & H2 & _).
  - unfold Sample2.original_locked. simpl.
    apply elem_of_singleton_2. reflexivity.
  - split; [exact H1|exact H2].
Defined.

Lemma join_nl_app (l1 l2 : list str) :
  l1 ≠ [] → l2 ≠ [] →
  join_nl (l1 ++ l2) = join_nl l1 ++ NL :: join_nl l2.
Proof.
  intros H1 H2. induction l1 as [|l l1 IH]; [done|].
  destruct l1 as [|l' l1].
  - destruct l2; [done|]. done.
  - change (join_nl ((l :: l' :: l1) ++ l2))
      with (l ++ NL :: join_nl ((l' :: l1) ++ l2)).
    rewrite IH by done. simpl. by rewrite <- app_assoc.
Qed.

Lemma join_nl_concat (groups : list (list str)) :
  Forall (λ g, g ≠ []) groups →
  join_nl (join_nl <$> groups) = join_nl (concat groups).
Proof.
  induction 1 as [|g groups Hg Hgroups IH]; [done|].
  destruct groups as [|g' groups].
  - simpl. by rewrite app_nil_r.
  - change (join_nl (join_nl <$> g :: g' :: groups))
      with (join_nl g ++ NL :: join_nl (join_nl <$> g' :: groups)).
    rewrite IH. change (concat (g :: g' :: groups))
      with (g ++ concat (g' :: groups)).
    rewrite join_nl_app; [done|done|].
    inversion Hgroups; subst. simpl. by destruct g'.
Qed.

(** X12: after a successful split in which no part is empty, of a text
    without carriage return (which is read as it is stored), the contents
    written to the part files, joined by newlines in order, are the text
    of the original. *)
Theorem part_files_join_to_original (fp : path) (word_count : Z) (w : world)
    (content : str) (created : list path) :
  files w !! fp = Some (Text content) →
  CR ∉ content →
  (split_text_file fp word_count w).2 = Ok created →
  created ≠ [] →
  ∃ pls : list (list str),
    Forall2 (λ i part,
               slice_of (split_nl content)
                 (compute_split_positions (part_count word_count)
                    (split_nl content)) i = Some part)
            (seq 0 (Z.to_nat (part_count word_count))) pls ∧
    log (split_text_file fp word_count w).1
    = log w ++ zip_with Write created (join_nl <$> pls) ++ [Unlink fp] ∧
    (Forall (λ part, part ≠ []) pls →
     join_nl (join_nl <$> pls) = content).
Proof.
  intros Hfile _ Hr Hne.
  destruct (split_text_file_run fp word_count w)
    as [(content' & pls & Hfp & Hpls & _ & Hrun)
       |(ps & cs & _ & _ & _ & Hrun)];
    rewrite Hrun in Hr |- *; simpl in *; [|congruence].
  injection Hr as <-. assert (content' = content) as -> by congruence.
  exists pls.
  split; [done|]. split; [by rewrite <- app_assoc|].
  intros Hfull. rewrite join_nl_concat by done.
  rewrite (parts_cover_document (part_count word_count) (split_nl content));
    [apply join_split_nl| |done].
  destruct (part_targets_facts fp word_count) as [Hlen _].
  destruct (part_targets fp word_count); [done|]. simpl in Hlen. lia.
Qed.

Lemma part_files_join_to_original_witness :
  ∃ pls : list (list str),
    log (split_text_file Sample.ch1 5000 Sample.plain_world).1
    = log Sample.plain_world
      ++ zip_with Write (part_targets Sample.ch1 5000) (join_nl <$> pls)
      ++ [Unlink Sample.ch1] ∧
    join_nl (join_nl <$> pls) = Sample.three_lines.
Proof.
  destruct (part_files_join_to_original Sample.ch1 5000 Sample.plain_world
              Sample.three_lines (part_targets Sample.ch1 5000))
    as (pls & Hpls & Hlog & Hjoin).
  - reflexivity.
  - intros Hin%list_elem_of_In.
    assert (forallb (λ c, negb (c =? CR)%N) Sample.three_lines = true)
      as Hall by (vm_compute; reflexivity).
    pose proof (proj1 (forallb_forall _ _) Hall _ Hin) as Hcr.
    discriminate Hcr.
  - vm_compute. reflexivity.
  - vm_compute. discriminate.
  - exists pls. split; [exact Hlog|]. apply Hjoin.
    change (Z.to_nat (part_count 5000)) with 2 in Hpls. simpl in Hpls.
    apply Forall2_cons_inv_l in Hpls as (p0 & pls1 & H0 & Hpls & ->).
    apply Forall2_cons_inv_l in Hpls as (p1 & pls2 & H1 & Hpls & ->).
    apply Forall2_nil_inv_l in Hpls as ->.
    vm_compute in H0, H1. injection H0 as <-. injection H1 as <-.
    repeat constructor; discriminate.
Defined.

(** ** The selection and the batch (lines 216-262) *)

Lemma select_files_paths (long_files : list long_file)
    (checked : path → bool) (keys : list path) (w : world) :
  (∀ p, p ∈ keys → p ∈ long_files.*2) →
  ∃ sel, select_files long_files checked keys w = (w, Ok sel) ∧
         sel.*1 = filter (λ p, checked p = true) keys ∧
         Forall (λ s, s.2 ∈ long_files ∧ s.2.2 = s.1) sel.
Proof.
  induction keys as [|p keys IH]; intros Hkeys; simpl.
  - by exists [].
  - destruct IH as (sel & Hrun & Hpaths & Hsel).
    { intros q Hq. apply Hkeys. by right. }
    rewrite filter_cons. destruct (checked p) eqn:Hp.
    + destruct (next_item_run long_files p w) as (item & Hitem & Hin & Hpath).
      { apply Hkeys. by left. }
      exists ((p, item) :: sel). unfold bind. rewrite Hitem, Hrun.
      rewrite decide_True by done. split; [done|].
      split; [by rewrite fmap_cons, Hpaths|by constructor].
    + exists sel. rewrite decide_False by done. done.
Qed.

Lemma dict_keys_spec (ps keys : list path) :
  NoDup keys →
  NoDup (foldl dict_add_key keys ps) ∧
  ∀ p, p ∈ foldl dict_add_key keys ps ↔ p ∈ keys ∨ p ∈ ps.
Proof.
  revert keys. induction ps as [|q ps IH]; intros keys Hnd; simpl.
  - split; [done|]. intros p. rewrite elem_of_nil. tauto.
  - destruct (IH (dict_add_key keys q)) as [Hnd' Hin].
    { unfold dict_add_key. case_decide; [done|].
      apply NoDup_app. split; [done|]. split; [|apply NoDup_singleton].
      intros x Hx ->%list_elem_of_singleton. done. }
    split; [done|]. intros p. rewrite Hin, elem_of_cons.
    unfold dict_add_key. case_decide as Hq.
    + split; [tauto|]. intros [?|[->|?]]; tauto.
    + rewrite elem_of_app, list_elem_of_singleton. tauto.
Qed.

Lemma select_checked_run (long_files : list long_file)
    (checked : path → bool) (w : world) :
  ∃ sel,
    select_files long_files checked (file_vars_keys long_files) w
    = (w, Ok sel) ∧
    NoDup sel.*1 ∧
    (∀ p, p ∈ sel.*1 ↔ p ∈ long_files.*2 ∧ checked p = true) ∧
    Forall (λ s, s.2 ∈ long_files ∧ s.2.2 = s.1) sel.
Proof.
  destruct (dict_keys_spec long_files.*2 [] (NoDup_nil_2)) as [Hnd Hkeys].
  fold (file_vars_keys long_files) in Hnd, Hkeys.
  destruct (select_files_paths long_files checked
              (file_vars_keys long_files) w) as (sel & Hrun & Hpaths & Hsel).
  { intros p [Hp|Hp]%Hkeys; [by apply elem_of_nil in Hp|done]. }
  exists sel. split; [done|]. rewrite Hpaths.
  split; [by apply NoDup_filter|]. split; [|done].
  intros p. rewrite list_elem_of_filter, Hkeys, elem_of_nil. tauto.
Qed.

(** X13: every checked long file is selected exactly once, with an entry of
    [long_files] for its own path, even when the path is listed twice. *)
Theorem checked_files_selected_once (long_files : list long_file)
    (checked : path → bool) (w : world) :
  ∃ sel,
    select_files long_files checked (file_vars_keys long_files) w
    = (w, Ok sel) ∧
    NoDup sel.*1 ∧
    (∀ p, p ∈ sel.*1 ↔ p ∈ long_files.*2 ∧ checked p = true) ∧
    Forall (λ s, s.2 ∈ long_files ∧ s.2.2 = s.1) sel.
Proof. apply select_checked_run. Qed.

(** X14: without the user's confirmation, or with no box checked, nothing is
    split and nothing changes. *)
Theorem nothing_split_without_confirmation (long_files : list long_file)
    (checked : path → bool) (confirmed : bool) (w : world) :
  confirmed = false ∨ (∀ p, checked p = false) →
  split_selected_files long_files checked confirmed w = (w, Ok None).
Proof.
  intros Hcase. unfold split_selected_files, bind.
  destruct (select_checked_run long_files checked w)
    as (sel & -> & _ & Hin & _).
  destruct sel as [|s sel]; [done|].
  destruct Hcase as [->|Hnone]; [done|].
  destruct (Hin s.1) as [[_ Hs] _]; [by left|]. by rewrite Hnone in Hs.
Qed.

Lemma nothing_split_without_confirmation_witness :
  split_selected_files
    [(name Sample.ch1, 9000%Z, Sample.ch1)] (λ _, true) false
    Sample.plain_world
  = (Sample.plain_world, Ok None).
Proof.
  apply (nothing_split_without_confirmation
           [(name Sample.ch1, 9000%Z, Sample.ch1)] (λ _, true) false
           Sample.plain_world).
  left. reflexivity.
Defined.

(** ** The order of the report (line 317) *)

Lemma insert_desc_sorted (d : file_datum) (l : list file_datum) :
  StronglySorted (λ d1 d2, (fd_word_count d2 ≤ fd_word_count d1)%Z) l →
  StronglySorted (λ d1 d2, (fd_word_count d2 ≤ fd_word_count d1)%Z)
                 (insert_desc d l).
Proof.
  induction 1 as [|e l Hl IH He]; simpl; [by repeat constructor|].
  destruct (Z.ltb_spec (fd_word_count d) (fd_word_count e)) as [Hlt|Hge].
  - constructor; [done|]. rewrite insert_desc_perm.
    constructor; [lia|done].
  - constructor; [by constructor|]. constructor; [done|].
    eapply Forall_impl; [exact He|]. simpl. intros. lia.
Qed.

Lemma insert_desc_filter (c : Z) (d : file_datum) (l : list file_datum) :
  filter (λ x, fd_word_count x = c) (insert_desc d l)
  = filter (λ x, fd_word_count x = c) (d :: l).
Proof.
  induction l as [|e l IH]; simpl; [done|].
  destruct (Z.ltb_spec (fd_word_count d) (fd_word_count e)) as [Hlt|Hge];
    [|done].
  rewrite !filter_cons in *. rewrite IH.
  repeat case_decide; try done; lia.
Qed.

Lemma filter_fmap_comm {A B} (f : A → B) (P : B → Prop)
    `{!∀ y, Decision (P y)} (l : list A) :
  filter P (f <$> l) = f <$> filter (λ x, P (f x)) l.
Proof.
  induction l as [|x l IH]; [done|].
  rewrite fmap_cons, !filter_cons, IH. by case_decide.
Qed.

Lemma sort_desc_facts (l : list file_datum) :
  StronglySorted (λ d1 d2, (fd_word_count d2 ≤ fd_word_count d1)%Z)
                 (sort_desc l) ∧
  ∀ c, filter (λ x, fd_word_count x = c) (sort_desc l)
       = filter (λ x, fd_word_count x = c) l.
Proof.
  induction l as [|d l [IH1 IH2]]; simpl.
  - split; [constructor|done].
  - split; [by apply insert_desc_sorted|].
    intros c. rewrite insert_desc_filter, !filter_cons, IH2. done.
Qed.

(** X15: the report lists every analysed file once, by decreasing count, and
    files with the same count keep the order of the listing. *)
Theorem report_sorted_by_count (txt_files : list path)
    (action : dialog_action) (w : world) :
  txt_files ≠ [] →
  ∃ w' a,
    analyze_folder true txt_files action w = (w', Ok (Some a)) ∧
    rows a ≡ₚ (λ p, csv_row (datum_of w p)) <$> txt_files ∧
    StronglySorted (λ r1 r2, (r2.1.2 ≤ r1.1.2)%Z) (rows a) ∧
    ∀ c, filter (λ r, r.1.2 = c) (rows a)
         = (λ p, csv_row (datum_of w p))
             <$> filter (λ p, count_of w p = c) txt_files.
Proof.
  intros Hne.
  destruct (analyze_folder_run txt_files action w Hne) as (w' & b & Hrun).
  eexists w', _. split; [exact Hrun|]. simpl.
  destruct (sort_desc_facts (datum_of w <$> txt_files)) as [Hsorted Hstable].
  split; [|split].
  - rewrite sort_desc_perm. by rewrite <- list_fmap_compose.
  - eapply StronglySorted_fmap; [|exact Hsorted]. done.
  - intros c. rewrite filter_fmap_comm.
    change (λ x, (csv_row x).1.2 = c) with (λ x, fd_word_count x = c).
    rewrite Hstable, filter_fmap_comm. by rewrite <- list_fmap_compose.
Qed.

Lemma report_sorted_by_count_witness :
  ∃ w' a,
    analyze_folder true [Sample.ch2; Sample.ch1] Cancel Sample.plain_world
    = (w', Ok (Some a)) ∧
    rows a ≡ₚ (λ p, csv_row (datum_of Sample.plain_world p))
                <$> [Sample.ch2; Sample.ch1] ∧
    StronglySorted (λ r1 r2, (r2.1.2 ≤ r1.1.2)%Z) (rows a).
Proof.
  destruct (report_sorted_by_count [Sample.ch2; Sample.ch1] Cancel
              Sample.plain_world) as (w' & a & H1 & H2 & H3 & _).
  - discriminate.
  - exists w', a. split; [exact H1|]. split; [exact H2|exact H3].
Defined.

(** * Further properties of the chapter splitter *)

Section ChapterShape.

Variable isdecimal : N → bool.

Lemma chapter_step_wf (st : Novel.loop_state) (seen : list str)
    (groups : list (list str)) (raw_line : str) :
  chapters_wf_inv isdecimal st seen groups →
  ∃ groups',
    chapters_wf_inv isdecimal (Novel.chapter_step isdecimal st raw_line)
      (seen ++ [strip raw_line]) groups'.
Proof.
  intros [Hdone Hcur]. unfold Novel.chapter_step, chapters_wf_inv.
  assert (is_header isdecimal (strip raw_line)
          = match Novel.chapter_match isdecimal (strip raw_line) with
            | Some _ => true | None => false end) as Hhead by done.
  rewrite filter_app, filter_cons, filter_nil.
  destruct (Novel.chapter_match isdecimal (strip raw_line))
    as [[chapter_num group2]|] eqn:Hmatch.
  - rewrite decide_True by done. cbn [Novel.current_chapter
      Novel.chapters Novel.current_content]. unfold Novel.close_chapter.
    assert (∃ (h : str) (body : list str) (g2 : str),
              [strip raw_line] = h :: body ∧
              Novel.chapter_match isdecimal h = Some (chapter_num, g2) ∧
              strip group2 = strip g2 ∧
              Forall (λ l, Novel.chapter_match isdecimal l = None) body)
      as Hnew.
    { exists (strip raw_line), [], group2. by repeat split. }
    destruct (Novel.current_chapter st) as [[num ttl]|].
    + destruct Hcur as ((h & body & g2 & Hc & Hh & Ht & Hbody) & Hlines
                        & Hlen).
      exists (groups ++ [Novel.current_content st]).
      split; [|split; [done|split]].
      * apply Forall2_app; [done|]. constructor; [|constructor].
        exists h, body, g2. by repeat split.
      * rewrite from_first_header_app, <- Hlines, concat_app; simpl.
        -- by rewrite app_nil_r.
        -- rewrite <- Hlines, Hc. by destruct (concat groups).
      * rewrite !length_app. simpl. lia.
    + destruct Hcur as (-> & Hnone & Hcount). exists [].
      split; [done|]. split; [done|]. split.
      * rewrite from_first_header_nil_app by done. simpl. by rewrite Hhead.
      * by rewrite Hcount.
  - rewrite decide_False by (by rewrite Hhead). rewrite app_nil_r.
    destruct (Novel.current_chapter st) as [[num ttl]|] eqn:Hst.
    + cbn [Novel.current_chapter Novel.chapters Novel.current_content].
      destruct Hcur as ((h & body & g2 & Hc & Hh & Ht & Hbody) & Hlines
                        & Hlen).
      exists groups. split; [done|]. split; [|split; [|done]].
      * exists h, (body ++ [strip raw_line]), g2. rewrite Hc.
        repeat split; try done. apply Forall_app. split; [done|].
        by apply Forall_singleton.
      * rewrite from_first_header_app, <- Hlines, app_assoc; [done|].
        rewrite <- Hlines, Hc. by destruct (concat groups).
    + destruct Hcur as (-> & Hnone & Hcount). exists []. rewrite Hst.
      split; [done|]. split; [done|]. split; [|done].
      rewrite from_first_header_nil_app by done. simpl. by rewrite Hhead.
Qed.

Lemma chapter_loop_wf (lines : list str) (st : Novel.loop_state)
    (seen : list str) (groups : list (list str)) :
  chapters_wf_inv isdecimal st seen groups →
  ∃ groups',
    chapters_wf_inv isdecimal (foldl (Novel.chapter_step isdecimal) st lines)
      (seen ++ (strip <$> lines)) groups'.
Proof.
  revert st seen groups.
  induction lines as [|l lines IH]; intros st seen groups Hinv; simpl.
  - exists groups. by rewrite app_nil_r.
  - destruct (chapter_step_wf st seen groups l Hinv) as [groups1 Hstep].
    destruct (IH _ _ _ Hstep) as [groups' Hloop].
    exists groups'. by rewrite <- app_assoc in Hloop.
Qed.

(** The chapters of a text are the chapters of the groups into which its
    header lines cut the stripped lines from the first header on. *)
Lemma collect_chapters_wf (lines : list str) :
  ∃ groups : list (list str),
    Forall2 (chapter_wf isdecimal)
            (Novel.collect_chapters isdecimal lines) groups ∧
    concat groups = from_first_header isdecimal (strip <$> lines) ∧
    length groups
    = length (filter (λ l, is_header isdecimal l = true) (strip <$> lines)).
Proof.
  destruct (chapter_loop_wf lines (Novel.Loop [] None []) [] [])
    as (groups & Hdone & Hcur); [by split|].
  unfold Novel.collect_chapters, Novel.close_chapter. simpl in Hcur.
  destruct (Novel.current_chapter _) as [[num ttl]|].
  - destruct Hcur as ((h & body & g2 & Hc & Hh & Ht & Hbody) & Hlines
                      & Hlen).
    exists (groups ++ [Novel.current_content
                         (foldl (Novel.chapter_step isdecimal)
                            (Novel.Loop [] None []) lines)]).
    split; [|split].
    + apply Forall2_app; [done|]. constructor; [|constructor].
      exists h, body, g2. by repeat split.
    + rewrite concat_app. simpl. by rewrite app_nil_r.
    + rewrite length_app. simpl. lia.
  - destruct Hcur as (-> & Hnone & Hcount). exists [].
    apply Forall2_nil_inv_r in Hdone as Hnil. rewrite Hnil, Hnone, Hcount.
    by repeat split.
Qed.

End ChapterShape.

(** X16: the header lines cut the stripped lines of the text, from the
    first header on, into groups, one per header: a header line and the
    lines below it up to the next header.  The chapters are the chapters
    of these groups, in order: the content of a chapter is its group
    joined by newlines, its number and its title are the two groups of
    its header, the title stripped. *)
Theorem chapters_follow_headers (isdecimal : N → bool) (lines : list str) :
  ∃ groups : list (list str),
    Forall2 (chapter_wf isdecimal)
            (Novel.collect_chapters isdecimal lines) groups ∧
    concat groups = from_first_header isdecimal (strip <$> lines) ∧
    length groups
    = length (filter (λ l, is_header isdecimal l = true) (strip <$> lines)).
Proof. apply collect_chapters_wf. Qed.

(** X17: when nothing exists at the input path the chapter splitter returns
    at once and nothing changes.  When the input does not decode, or no
    line of it, stripped, is a chapter header, no file is written, changed
    or removed: the files and the trace of file effects are as before
    (the output folder of lines 23-25 is all that the run can have
    created). *)
Theorem no_chapter_no_output (isdecimal : N → bool) (file_path : str)
    (w : world) :
  files w !! of_str file_path = None
  ∨ files w !! of_str file_path = Some Undecodable
  ∨ (∃ text,
       files w !! of_str file_path = Some (Text text) ∧
       Forall (λ l, Novel.chapter_match isdecimal (strip l) = None)
              (split_nl text)) →
  files (Novel.split_novel_by_chapters isdecimal file_path w).1 = files w ∧
  log (Novel.split_novel_by_chapters isdecimal file_path w).1 = log w ∧
  (files w !! of_str file_path = None →
   Novel.split_novel_by_chapters isdecimal file_path w = (w, Ok tt)).
Proof.
  intros Hcase.
  assert (Novel.split_novel_by_chapters isdecimal file_path w = (w, Ok tt))
    as ->; [|done].
  unfold Novel.split_novel_by_chapters, try_except, bind, read_text.
  destruct Hcase as [->|[->|(text & -> & Hnone)]]; [done|done|].
  pose proof (preamble_skipped isdecimal (split_nl text) [] Hnone) as Hskip.
  rewrite app_nil_r in Hskip. by rewrite Hskip.
Qed.

Lemma no_chapter_no_output_witness :
  files (Novel.split_novel_by_chapters Sample.ascii_digit
           [110; 111; 118; 101; 108; 47; 99; 104; 49; 46; 116; 120; 116]%N
           Sample.plain_world).1
  = files Sample.plain_world ∧
  log (Novel.split_novel_by_chapters Sample.ascii_digit
         [110; 111; 118; 101; 108; 47; 99; 104; 49; 46; 116; 120; 116]%N
         Sample.plain_world).1
  = log Sample.plain_world.
Proof.
  destruct (no_chapter_no_output Sample.ascii_digit
              [110; 111; 118; 101; 108; 47; 99; 104; 49; 46; 116; 120; 116]%N
              Sample.plain_world) as (Hfiles & Hlog & _); [|by split].
  right. right. exists Sample.three_lines. split; [reflexivity|].
  assert (forallb
            (λ l, match Novel.chapter_match Sample.ascii_digit (strip l) with
                  | None => true
                  | Some _ => false
                  end) (split_nl Sample.three_lines) = true) as Hall
    by (vm_compute; reflexivity).
  apply Forall_forall. intros l Hl%list_elem_of_In.
  pose proof (proj1 (forallb_forall _ _) Hall l Hl) as Hnone.
  simpl in Hnone.
  by destruct (Novel.chapter_match Sample.ascii_digit (strip l)).
Defined.

Lemma write_chapters_keeps (output_folder : str) (chs : list Novel.chapter)
    (w : world) (q : path) :
  (∀ ch, ch ∈ chs → child output_folder (Novel.chapter_filename ch) ≠ q) →
  files (Novel.write_chapters output_folder chs w).1 !! q = files w !! q.
Proof.
  revert w. induction chs as [|ch chs IH]; intros w Hq; simpl; [done|].
  unfold bind, write_text. case_decide; [done|].
  rewrite IH by (intros ch' Hch'; apply Hq; by right). simpl.
  apply lookup_insert_ne. apply Hq. by left.
Qed.

Lemma write_chapters_last_wins (output_folder : str)
    (chs : list Novel.chapter) (w : world) :
  (∀ ch, ch ∈ chs →
         child output_folder (Novel.chapter_filename ch) ∉ write_denied w) →
  (Novel.write_chapters output_folder chs w).2 = Ok tt ∧
  ∀ i ch,
    chs !! i = Some ch →
    (∀ j ch', i < j → chs !! j = Some ch' →
              Novel.chapter_filename ch' ≠ Novel.chapter_filename ch) →
    files (Novel.write_chapters output_folder chs w).1
      !! child output_folder (Novel.chapter_filename ch)
    = Some (Text (Novel.content ch)).
Proof.
  revert w. induction chs as [|ch0 chs IH]; intros w Hok; [done|].
  cbn [Novel.write_chapters]. unfold bind, write_text.
  rewrite decide_False by (apply Hok; by left).
  set (w1 := World _ _ _ _).
  destruct (IH w1) as [Hr Hfiles].
  { intros ch Hch. apply Hok. by right. }
  split; [done|]. intros [|i] ch Hch Hlast; simplify_eq/=.
  - rewrite write_chapters_keeps.
    + apply lookup_insert_eq.
    + intros ch' [j Hj]%list_elem_of_lookup Heq.
      apply (Hlast (S j) ch'); [lia|done|]. unfold child in Heq. congruence.
  - apply (Hfiles i ch); [done|]. intros j ch' Hij Hj.
    apply (Hlast (S j) ch'); [lia|done].
Qed.

(** X18: when every chapter file can be written, each file holds the content
    of the last chapter that has its name: a chapter whose number and
    cleaned title come back later in the text is overwritten. *)
Theorem later_chapter_overwrites (isdecimal : N → bool) (file_path text : str)
    (w : world) :
  let chs := Novel.collect_chapters isdecimal (split_nl text) in
  let output_folder := splitext_root (name (of_str file_path)) in
  files w !! of_str file_path = Some (Text text) →
  (∀ ch, ch ∈ chs →
         child output_folder (Novel.chapter_filename ch) ∉ write_denied w) →
  ∀ i ch,
    chs !! i = Some ch →
    (∀ j ch', i < j → chs !! j = Some ch' →
              Novel.chapter_filename ch' ≠ Novel.chapter_filename ch) →
    files (Novel.split_novel_by_chapters isdecimal file_path w).1
      !! child output_folder (Novel.chapter_filename ch)
    = Some (Text (Novel.content ch)).
Proof.
  intros chs output_folder Hfile Hok i ch Hch Hlast.
  unfold Novel.split_novel_by_chapters, try_except, bind, read_text.
  rewrite Hfile.
  destruct (write_chapters_last_wins output_folder chs w Hok) as [Hr Hfiles].
  specialize (Hfiles i ch Hch Hlast). fold chs output_folder.
  destruct (Novel.write_chapters output_folder chs w) as [w' [[]|e]];
    simpl in *; done.
Qed.

Lemma later_chapter_overwrites_witness :
  files (Novel.split_novel_by_chapters Sample.ascii_digit Sample2.book_txt
           Sample2.book_world).1
    !! child (splitext_root (name (of_str Sample2.book_txt)))
         (Novel.chapter_filename Sample2.second_chapter)
  = Some (Text (Novel.content Sample2.second_chapter)).
Proof.
  apply (λ H1 H2,
           later_chapter_overwrites Sample.ascii_digit Sample2.book_txt
             Sample2.twice_text Sample2.book_world H1 H2
             1 Sample2.second_chapter).
  - reflexivity.
  - intros ch _. apply not_elem_of_empty.
  - reflexivity.
  - intros [|[|j]] ch' Hj Hlook; [lia|lia|]. vm_compute in Hlook.
    discriminate.
Defined.

(** ** The shape of a header line (line 34) *)

Lemma span_spec (f : N → bool) (s a b : str) :
  span f s = (a, b) →
  s = a ++ b ∧ Forall (λ c, f c = true) a.
Proof.
  revert a b. induction s as [|c s IH]; intros a b; simpl.
  - intros [= <- <-]. by split.
  - destruct (f c) eqn:Hc.
    + destruct (span f s) as [a' b']. intros [= <- <-].
      destruct (IH a' b') as [-> Ha]; [done|]. split; [done|].
      by constructor.
    + intros [= <- <-]. by split.
Qed.

Section HeaderShape.

Variable isdecimal : N → bool.

Lemma match_title_shape (u t : str) :
  Novel.match_title u = Some t →
  ∃ ws e, u = ws ++ t ++ e ∧ (e = [] ∨ e = [NL]) ∧
          ws ≠ [] ∧ Forall (λ c, isspace c = true) ws ∧
          t ≠ [] ∧ NL ∉ t.
Proof.
  unfold Novel.match_title.
  set (u' := match rev u with
             | c :: r => if (c =? NL)%N then rev r else u
             | [] => u
             end).
  assert (∃ e, u = u' ++ e ∧ (e = [] ∨ e = [NL])) as (e & Hu & He).
  { unfold u'. destruct (rev u) as [|c r] eqn:Hrev.
    - exists []. by rewrite app_nil_r; split; [|left].
    - destruct (N.eqb_spec c NL) as [->|Hc].
      + exists [NL]. split; [|by right].
        rewrite <- (rev_involutive u), Hrev. done.
      + exists []. by rewrite app_nil_r; split; [|left]. }
  destruct (span isspace u') as [ws r] eqn:Hspan.
  apply span_spec in Hspan as [Hu' Hws].
  destruct r as [|c r].
  - destruct (rev ws) as [|c [|c' rest]] eqn:Hrev; [done|done|].
    destruct (N.eqb_spec c NL) as [->|Hc]; [done|]. intros [= <-].
    assert (ws = (rev rest ++ [c']) ++ [c]) as Hws'.
    { rewrite <- (rev_involutive ws), Hrev. done. }
    exists (rev rest ++ [c']), e. rewrite Hu, Hu', Hws', app_nil_r.
    split; [by rewrite <- !app_assoc|]. split; [done|].
    split; [by destruct (rev rest)|].
    rewrite Hws' in Hws. apply Forall_app in Hws as [Hws _].
    split; [done|]. split; [done|].
    by intros ?%list_elem_of_singleton.
  - destruct (forallb _ (c :: r)) eqn:Hall; [|done].
    destruct ws as [|w ws]; [done|]. intros [= <-].
    exists (w :: ws), e. rewrite Hu, Hu'.
    split; [by rewrite <- !app_assoc|]. split; [done|].
    split; [done|]. split; [done|]. split; [done|].
    intros Hin%list_elem_of_In.
    pose proof (proj1 (forallb_forall _ _) Hall NL Hin) as Hnl.
    done.
Qed.

Lemma match_number_shape (seen : bool) (s ds t : str) :
  Novel.match_number isdecimal seen s = Some (ds, t) →
  ∃ rest, s = ds ++ Novel.zhang :: rest ∧
          Forall (λ c, isdecimal c = true) ds ∧
          (seen = false → ds ≠ []) ∧
          Novel.match_title rest = Some t.
Proof.
  revert seen ds t. induction s as [|c s IH]; intros seen ds t; [done|].
  cbn [Novel.match_number].
  assert ((if seen && (c =? Novel.zhang)%N
           then (λ t, ([], t)) <$> Novel.match_title s else None)
          = Some (ds, t) →
          ∃ rest, c :: s = ds ++ Novel.zhang :: rest ∧
                  Forall (λ c, isdecimal c = true) ds ∧
                  (seen = false → ds ≠ []) ∧
                  Novel.match_title rest = Some t) as Hstop.
  { destruct seen; [|done]. simpl.
    destruct (N.eqb_spec c Novel.zhang) as [->|]; [|done].
    destruct (Novel.match_title s) as [t'|] eqn:Ht; [|done].
    intros [= <- <-]. exists s. by repeat split. }
  destruct (isdecimal c) eqn:Hc; [|done].
  destruct (Novel.match_number isdecimal true s) as [[ds' t']|] eqn:Hrec;
    [|done].
  intros [= <- <-].
  destruct (IH true ds' t' Hrec) as (rest & -> & Hds & _ & Ht).
  exists rest. split; [done|]. split; [by constructor|]. by split.
Qed.

Lemma chapter_match_shape (line num t : str) :
  Novel.chapter_match isdecimal line = Some (num, t) →
  ∃ ws e,
    line = [Novel.di] ++ num ++ [Novel.zhang] ++ ws ++ t ++ e ∧
    (e = [] ∨ e = [NL]) ∧
    num ≠ [] ∧ Forall (λ c, isdecimal c = true) num ∧
    ws ≠ [] ∧ Forall (λ c, isspace c = true) ws ∧
    t ≠ [] ∧ NL ∉ t.
Proof.
  unfold Novel.chapter_match. destruct line as [|c s]; [done|].
  destruct (N.eqb_spec c Novel.di) as [->|]; [|done].
  intros (rest & -> & Hds & Hne & Ht)%match_number_shape.
  destruct (match_title_shape rest t Ht)
    as (ws & e & -> & He & Hws & Hspace & Htne & Hnl).
  exists ws, e. split; [done|].
  repeat split; try done. by apply Hne.
Qed.

End HeaderShape.

(** X19: a line taken as a chapter header is the chapter sign, one or more
    decimal digits (the number), the second sign, one or more whitespace
    characters and a non-empty title without newline; only a final
    newline may follow. *)
Theorem header_line_shape (isdecimal : N → bool) (line num t : str) :
  Novel.chapter_match isdecimal line = Some (num, t) →
  ∃ ws e,
    line = [Novel.di] ++ num ++ [Novel.zhang] ++ ws ++ t ++ e ∧
    (e = [] ∨ e = [NL]) ∧
    num ≠ [] ∧ Forall (λ c, isdecimal c = true) num ∧
    ws ≠ [] ∧ Forall (λ c, isspace c = true) ws ∧
    t ≠ [] ∧ NL ∉ t.
Proof. apply chapter_match_shape. Qed.

Lemma header_line_shape_witness :
  ∃ ws e,
    [31532; 49; 50; 31456; 32; 12288; 65; 66]%N
    = [Novel.di] ++ [49; 50]%N ++ [Novel.zhang] ++ ws ++ [65; 66]%N ++ e ∧
    (e = [] ∨ e = [NL]) ∧
    [49; 50]%N ≠ [] ∧
    Forall (λ c, Sample.ascii_digit c = true) [49; 50]%N ∧
    ws ≠ [] ∧ Forall (λ c, isspace c = true) ws ∧
    [65; 66]%N ≠ [] ∧ NL ∉ [65; 66]%N.
Proof.
  apply (header_line_shape Sample.ascii_digit
           [31532; 49; 50; 31456; 32; 12288; 65; 66]%N).
  reflexivity.
Defined.

(** * The JSON text of a response *)

Lemma find_from_none (c : N) (s : str) (i : Z) :
  c ∉ s → Gemini.find_from c s i = (-1)%Z.
Proof.
  revert i. induction s as [|x s IH]; intros i Hc; simpl; [done|].
  apply not_elem_of_cons in Hc as [Hx Hc].
  destruct (N.eqb_spec x c); [congruence|]. by apply IH.
Qed.

Lemma find_from_first (c : N) (pre rest : str) (i : Z) :
  c ∉ pre →
  Gemini.find_from c (pre ++ c :: rest) i = (i + Z.of_nat (length pre))%Z.
Proof.
  revert i. induction pre as [|x pre IH]; intros i Hc; simpl.
  - rewrite N.eqb_refl. lia.
  - apply not_elem_of_cons in Hc as [Hx Hc].
    destruct (N.eqb_spec x c); [congruence|]. rewrite IH by done. lia.
Qed.

Lemma rfind_none (c : N) (s : str) : c ∉ s → rfind c s = None.
Proof.
  induction s as [|x s IH]; intros Hc; simpl; [done|].
  apply not_elem_of_cons in Hc as [Hx Hc]. rewrite IH by done.
  destruct (N.eqb_spec x c); [congruence|done].
Qed.

Lemma rfind_last (c : N) (pre post : str) :
  c ∉ post → rfind c (pre ++ c :: post) = Some (length pre).
Proof.
  intros Hc. induction pre as [|x pre IH]; simpl.
  - rewrite rfind_none by done. by rewrite N.eqb_refl.
  - by rewrite IH.
Qed.

Lemma rfind_app_none (c : N) (a b : str) :
  c ∉ b → rfind c (a ++ b) = rfind c a.
Proof.
  intros Hc. induction a as [|x a IH]; simpl; [by apply rfind_none|].
  by rewrite IH.
Qed.

Lemma rfind_lt (c : N) (s : str) (i : nat) :
  rfind c s = Some i → i < length s.
Proof. intros Hi%rfind_lookup. by apply lookup_lt_Some in Hi. Qed.

(** X20: the text handed to the JSON parser: the whole response when it holds
    no opening bracket; the stretch from the first opening bracket to the
    last closing bracket when that one comes later; and the empty text
    when no closing bracket comes after the first opening one. *)
Theorem json_text_of_response :
  (∀ s, 91%N ∉ s → Gemini.extract_json_text s = s) ∧
  (∀ pre mid post,
     91%N ∉ pre → 93%N ∉ post →
     Gemini.extract_json_text (pre ++ [91%N] ++ mid ++ [93%N] ++ post)
     = [91%N] ++ mid ++ [93%N]) ∧
  (∀ pre rest,
     91%N ∉ pre → 93%N ∉ rest →
     Gemini.extract_json_text (pre ++ 91%N :: rest) = []).
Proof.
  split; [|split].
  - intros s Hs. unfold Gemini.extract_json_text, Gemini.find.
    by rewrite find_from_none.
  - intros pre mid post Hpre Hpost.
    change (pre ++ [91%N] ++ mid ++ [93%N] ++ post)
      with (pre ++ 91%N :: mid ++ 93%N :: post).
    assert (Gemini.find 91 (pre ++ 91%N :: mid ++ 93%N :: post)
            = Z.of_nat (length pre)) as Hfind.
    { unfold Gemini.find. rewrite find_from_first by done. lia. }
    assert (Gemini.rfind_index 93 (pre ++ 91%N :: mid ++ 93%N :: post)
            = Z.of_nat (length pre + S (length mid))) as Hrfind.
    { unfold Gemini.rfind_index.
      change (pre ++ 91%N :: mid ++ 93%N :: post)
        with (pre ++ (91%N :: mid) ++ 93%N :: post).
      rewrite (app_assoc pre (91%N :: mid) (93%N :: post)).
      rewrite rfind_last by done. by rewrite length_app. }
    unfold Gemini.extract_json_text. rewrite Hfind, Hrfind.
    assert ((Z.of_nat (length pre) =? -1)%Z = false) as -> by lia.
    assert ((Z.of_nat (length pre + S (length mid)) + 1 =? -1)%Z = false)
      as -> by (apply Z.eqb_neq; lia).
    cbn [negb andb]. unfold slice. rewrite Nat2Z.id.
    replace (Z.to_nat (Z.of_nat (length pre + S (length mid)) + 1)
             - length pre) with (length (91%N :: mid ++ [93%N]))
      by (simpl; rewrite length_app; simpl; lia).
    rewrite drop_app_length.
    replace (91%N :: mid ++ 93%N :: post)
      with ((91%N :: mid ++ [93%N]) ++ post)
      by (simpl; by rewrite <- app_assoc).
    by rewrite take_app_length.
  - intros pre rest Hpre Hrest.
    assert (Gemini.find 91 (pre ++ 91%N :: rest) = Z.of_nat (length pre))
      as Hfind.
    { unfold Gemini.find. rewrite find_from_first by done. lia. }
    unfold Gemini.extract_json_text, Gemini.rfind_index. rewrite Hfind.
    assert ((Z.of_nat (length pre) =? -1)%Z = false) as -> by lia.
    rewrite rfind_app_none by (by apply not_elem_of_cons).
    destruct (rfind 93 pre) as [i|] eqn:Hi.
    + apply rfind_lt in Hi.
      assert ((Z.of_nat i + 1 =? -1)%Z = false) as ->
        by (apply Z.eqb_neq; lia).
      cbn [negb andb]. unfold slice.
      replace (Z.to_nat (Z.of_nat i + 1) - Z.to_nat (Z.of_nat (length pre)))
        with 0 by lia.
      done.
    + simpl. unfold slice. by rewrite take_0.
Qed.

Lemma json_text_of_response_witness :
  Gemini.extract_json_text ([120%N] ++ [91%N] ++ [49%N] ++ [93%N] ++ [121%N])
  = [91%N] ++ [49%N] ++ [93%N] ∧
  Gemini.extract_json_text ([93%N] ++ 91%N :: [49%N]) = [].
Proof.
  destruct json_text_of_response as (_ & Hmid & Hnone).
  split.
  - apply Hmid; by intros ?%list_elem_of_singleton.
  - apply Hnone; by intros ?%list_elem_of_singleton.
Defined.

(** * The path prompts *)

Lemma lstrip_spaces (ws q : str) :
  Forall (λ c, isspace c = true) ws →
  (∀ c r, q = c :: r → isspace c = false) →
  lstrip (ws ++ q) = q.
Proof.
  intros Hws Hq. induction Hws as [|c ws Hc _ IH]; simpl.
  - destruct q as [|c r]; [done|]. simpl. by rewrite (Hq c r).
  - by rewrite Hc.
Qed.

Lemma strip_spaces (ws1 ws2 q : str) (first last : N) (mid : str) :
  Forall (λ c, isspace c = true) ws1 →
  Forall (λ c, isspace c = true) ws2 →
  q = first :: mid ++ [last] →
  isspace first = false → isspace last = false →
  strip (ws1 ++ q ++ ws2) = q.
Proof.
  intros H1 H2 -> Hfirst Hlast. unfold strip, rstrip.
  rewrite lstrip_spaces; [|done|].
  2: { intros c r [= <- _]. done. }
  rewrite rev_app_distr, lstrip_spaces.
  - apply rev_involutive.
  - by apply Forall_rev.
  - intros c r. simpl. rewrite rev_unit. simpl. by intros [= <- _].
Qed.

Lemma lstrip_quotes_id (s : str) :
  Cli.starts_with_quote s = false → Cli.lstrip_quotes s = s.
Proof. destruct s as [|c s]; [done|]. simpl. by intros ->. Qed.

(** X21: a path typed between one pair of double quotes, with blanks around
    them or not, is used without the quotes by both programs, as long as
    the path itself neither starts nor ends with a quote; the chapter
    splitter removes one pair only, and takes a lone quote for the empty
    path. *)
Theorem quoted_path_is_unquoted :
  (∀ ws1 ws2 p,
     Forall (λ c, isspace c = true) ws1 →
     Forall (λ c, isspace c = true) ws2 →
     Cli.novel_path (ws1 ++ ([Cli.quote] ++ p ++ [Cli.quote]) ++ ws2) = p ∧
     (Cli.starts_with_quote p = false → Cli.ends_with_quote p = false →
      Cli.analyzer_path (ws1 ++ ([Cli.quote] ++ p ++ [Cli.quote]) ++ ws2)
      = p)) ∧
  Cli.novel_path [Cli.quote] = [].
Proof.
  split; [|reflexivity].
  intros ws1 ws2 p H1 H2.
  assert (strip (ws1 ++ ([Cli.quote] ++ p ++ [Cli.quote]) ++ ws2)
          = [Cli.quote] ++ p ++ [Cli.quote]) as Hstrip.
  { by apply (strip_spaces ws1 ws2 _ Cli.quote Cli.quote p). }
  split.
  - unfold Cli.novel_path. rewrite Hstrip.
    unfold Cli.ends_with_quote.
    rewrite (app_assoc [Cli.quote] p), rev_app_distr. simpl.
    unfold slice. cbn [drop]. rewrite length_app. simpl length.
    replace (length p + 1 - 0 - 1) with (length p) by lia.
    by rewrite drop_0, take_app_length.
  - intros Hstart Hend. unfold Cli.analyzer_path. rewrite Hstrip.
    unfold Cli.strip_quotes.
    change (Cli.lstrip_quotes ([Cli.quote] ++ p ++ [Cli.quote]))
      with (Cli.lstrip_quotes (p ++ [Cli.quote])).
    destruct p as [|c p]; [done|].
    rewrite (lstrip_quotes_id ((c :: p) ++ [Cli.quote])) by done.
    rewrite rev_unit.
    change (Cli.lstrip_quotes (Cli.quote :: rev (c :: p)))
      with (Cli.lstrip_quotes (rev (c :: p))).
    rewrite lstrip_quotes_id by done. apply rev_involutive.
Qed.

Lemma quoted_path_is_unquoted_witness :
  Cli.novel_path ([32%N] ++ ([Cli.quote] ++ [97%N] ++ [Cli.quote]) ++ [])
  = [97%N] ∧
  Cli.analyzer_path ([32%N] ++ ([Cli.quote] ++ [97%N] ++ [Cli.quote]) ++ [])
  = [97%N].
Proof.
  destruct quoted_path_is_unquoted as [H _].
  destruct (H [32%N] [] [97%N]) as [Hnovel Hanalyzer].
  - by apply Forall_singleton.
  - apply Forall_nil_2.
  - split; [exact Hnovel|]. by apply Hanalyzer.
Defined.

(** * A split with too few positions *)

Lemma write_parts_app (fp : path) (lines suffixes : list str) (sp : list nat)
    (l1 l2 : list nat) (created : list path) (w : world) :
  write_parts fp lines suffixes sp (l1 ++ l2) created w
  = bind (write_parts fp lines suffixes sp l1 created)
         (write_parts fp lines suffixes sp l2) w.
Proof.
  revert created w. induction l1 as [|i l1 IH]; intros created w; [done|].
  cbn [app write_parts]. unfold bind in *.
  destruct (write_part fp lines suffixes sp i w) as [w1 [p|e]]; [|done].
  apply IH.
Qed.

(** X11: when the scan leaves fewer positions than parts and the part files
    can be written, the split writes one file per position and stops on
    the missing one: the original is kept, the files written so far stay,
    and the empty list is returned. *)
Theorem too_few_positions_leave_parts_behind (fp : path) (word_count : Z)
    (w : world) (content : str) :
  let sp := compute_split_positions (part_count word_count)
              (split_nl content) in
  files w !! fp = Some (Text content) →
  length sp < Z.to_nat (part_count word_count) →
  Forall (λ p, p ∉ write_denied w) (part_targets fp word_count) →
  (split_text_file fp word_count w).2 = Ok [] ∧
  files (split_text_file fp word_count w).1 !! fp = Some (Text content) ∧
  ∃ contents : list str,
    length contents = length sp ∧
    log (split_text_file fp word_count w).1
    = log w ++ zip_with Write (take (length sp) (part_targets fp word_count))
                 contents.
Proof.
  intros sp Hfp Hfew Hok.
  set (parts := part_count word_count) in *.
  set (lines := split_nl content) in *.
  destruct (part_targets_facts fp word_count) as (Hlen & _ & Hfresh).
  assert (length (part_suffixes word_count) = Z.to_nat parts) as Hsuf.
  { unfold part_targets in Hlen. by rewrite length_fmap in Hlen. }
  assert (seq 0 (Z.to_nat parts)
          = seq 0 (length sp)
            ++ length sp :: seq (S (length sp))
                              (Z.to_nat parts - S (length sp))) as Hseq.
  { replace (Z.to_nat parts)
      with (length sp + S (Z.to_nat parts - S (length sp))) at 1 by lia.
    by rewrite seq_app. }
  destruct (write_parts_succeeds fp lines (part_suffixes word_count) sp
              (seq 0 (length sp)) [] w) as [cr Hcr].
  { intros i Hi%elem_of_seq. split.
    - unfold slice_of.
      destruct (lookup_lt_is_Some_2 sp i) as [a ->]; [lia|]. by eexists.
    - destruct (lookup_lt_is_Some_2 (part_suffixes word_count) i)
        as [s Hs]; [lia|].
      exists s. split; [done|]. rewrite Forall_forall in Hok. apply Hok.
      unfold part_targets. apply list_elem_of_fmap_2.
      by eapply list_elem_of_lookup_2. }
  destruct (write_parts_run fp lines (part_suffixes word_count) sp
              (seq 0 (length sp)) [] w)
    as (ps & pls & r & Hrun & Hps & Hpls & _ & Hr).
  rewrite Hrun in Hcr. simpl in Hcr. subst r.
  destruct Hr as [[Hall [= ->]]|[_ [e He]]]; [|done].
  rewrite length_seq in Hall.
  rewrite take_seq, Nat.min_l in Hps, Hpls by lia.
  apply targets_of_lookups in Hps. rewrite Hall in Hps.
  assert (ps = take (length sp) (part_targets fp word_count)) as Hprefix.
  { rewrite Hps. unfold part_targets. by rewrite fmap_take. }
  assert (split_text_file fp word_count w
          = (written w ps (join_nl <$> pls), Ok [])) as Hsplit.
  { unfold split_text_file, try_except, split_text_file_body, bind,
      read_text.
    rewrite Hfp. fold lines parts sp. rewrite Hseq, write_parts_app.
    unfold bind. rewrite Hrun. cbn [write_parts]. unfold bind.
    rewrite write_part_run. unfold slice_of.
    by rewrite (lookup_ge_None_2 sp (length sp)). }
  rewrite Hsplit. simpl. split; [done|]. split.
  - rewrite <- Hfp. apply foldl_insert_lookup_ne. rewrite Hprefix.
    intros Hin. apply Hfresh. by eapply subseteq_take.
  - exists (join_nl <$> pls). split.
    + rewrite length_fmap. apply Forall2_length in Hpls.
      rewrite length_seq in Hpls. lia.
    + by rewrite Hprefix.
Qed.

Lemma too_few_positions_leave_parts_behind_witness :
  (split_text_file Sample.ch1 12001 Sample.one_long_line).2 = Ok [] ∧
  files (split_text_file Sample.ch1 12001 Sample.one_long_line).1
    !! Sample.ch1
  = Some (Text (replicate (Z.to_nat 12001) 97%N)).
Proof.
  destruct (too_few_positions_leave_parts_behind Sample.ch1 12001
              Sample.one_long_line (replicate (Z.to_nat 12001) 97%N))
    as (H1 & H2 & _).
  - reflexivity.
  - vm_compute. lia.
  - apply Forall_forall. intros p _. apply not_elem_of_empty.
  - split; [exact H1|exact H2].
Defined.
